(** * Go2 locomotion control core: a shallow embedding of the Python sources

    The development follows the layout of the repository:

    - [PathController]  : [go2_gait_simulation.py], class [PathController]
    - [Sim]             : [go2_gait_simulation.py], the loop of [main]
    - [Gait]            : [go2_gait.py], class [Go2RealRobot] and [main]
    - [Unified]         : [go2control_system.py]
    - [CLI]             : [pyCLI.py]

    Python floats are modelled by the real numbers [R]; comparisons are the
    decidable order of [R].  Python exceptions are values of type [exn] and a
    call that may raise returns a [result]. *)

From Stdlib Require Import Reals Lra Lia List String Bool Arith ZArith.
From Stdlib Require Import DecimalString Permutation.
Import ListNotations.

Open Scope R_scope.

(** ** Python runtime conventions *)

Module Py.

Inductive exn : Type :=
| TypeError
| IndexError
| ZeroDivisionError
| AttributeError
| EOFError
| RuntimeError
| KeyboardInterrupt
| SystemExit.

(** [isinstance(e, Exception)]: [KeyboardInterrupt] and [SystemExit] derive
    from [BaseException] only. *)
Definition is_Exception (e : exn) : bool :=
  match e with
  | KeyboardInterrupt | SystemExit => false
  | _ => true
  end.

Inductive result (A : Type) : Type :=
| Ok (a : A)
| Raise (e : exn).
Arguments Ok {A} a.
Arguments Raise {A} e.

Definition ltb (x y : R) : bool := if Rlt_dec x y then true else false.
Definition gtb (x y : R) : bool := ltb y x.
Definition geb (x y : R) : bool := if Rle_dec y x then true else false.
Definition eqb (x y : R) : bool := if Req_dec_T x y then true else false.

(** The builtins [min(a, b)] and [max(a, b)] on two arguments: the first
    argument is kept unless the second is strictly better. *)
Definition min (a b : R) : R := if ltb b a then b else a.
Definition max (a b : R) : R := if gtb b a then b else a.

(** [math.radians]. *)
Definition radians (deg : R) : R := deg * (PI / 180).

(** Three-component vectors (positions, velocities). *)
Definition vec3 : Type := (R * R * R)%type.
Definition nth0 (v : vec3) : R := fst (fst v).
Definition nth1 (v : vec3) : R := snd (fst v).
Definition nth2 (v : vec3) : R := snd v.
Definition zero3 : vec3 := (0, 0, 0).

End Py.
Import Py.

(** ** [go2_gait_simulation.py]: class [PathController] *)

Module PathController.

Record t : Type := mk {
  path_length : R;
  speed_modes : list string;
  current_speed_mode : nat;
  gaze_enabled : bool;
  was_stopped : bool
}.

(** [__init__] *)
Definition init : t := {|
  path_length := 15;
  speed_modes := ["1-3_gradual"; "3-1_gradual"; "1-3_abrupt";
                  "3-1_abrupt"; "1_stop_1"; "3_stop_3"]%string;
  current_speed_mode := 0;
  gaze_enabled := false;
  was_stopped := false
|}.

Definition set_current_speed_mode (self : t) (i : nat) : t :=
  mk (path_length self) (speed_modes self) i (gaze_enabled self)
     (was_stopped self).
Definition set_gaze_enabled (self : t) (b : bool) : t :=
  mk (path_length self) (speed_modes self) (current_speed_mode self) b
     (was_stopped self).
Definition set_was_stopped (self : t) (b : bool) : t :=
  mk (path_length self) (speed_modes self) (current_speed_mode self)
     (gaze_enabled self) b.

(** [distance_traveled / self.path_length] *)
Definition ratio (self : t) (distance_traveled : R) : result R :=
  if eqb (path_length self) 0 then Raise ZeroDivisionError
  else Ok (distance_traveled / path_length self).

(** [get_speed(self, distance_traveled)] *)
Definition get_speed (self : t) (distance_traveled : R) : result R :=
  match nth_error (speed_modes self) (current_speed_mode self) with
  | None => Raise IndexError
  | Some mode =>
    if (mode =? "1-3_gradual")%string then
      match ratio self distance_traveled with
      | Ok q => Ok (1 + q * 2)
      | Raise e => Raise e
      end
    else if (mode =? "3-1_gradual")%string then
      match ratio self distance_traveled with
      | Ok q => Ok (3 - q * 2)
      | Raise e => Raise e
      end
    else if (mode =? "1-3_abrupt")%string then
      Ok (if ltb distance_traveled 8 then 1 else 3)
    else if (mode =? "3-1_abrupt")%string then
      Ok (if ltb distance_traveled 8 then 3 else 1)
    else if (mode =? "1_stop_1")%string then
      Ok (if ltb distance_traveled 8 then 1
          else if ltb distance_traveled 8.5 then 0
          else 1)
    else if (mode =? "3_stop_3")%string then
      Ok (if ltb distance_traveled 8 then 3
          else if ltb distance_traveled 8.5 then 0
          else 3)
    else Ok 1
  end.

(** A call [path_controller.get_speed(a1, ..., an)] with positional arguments:
    the method binds exactly one parameter besides [self]; any other
    number of arguments is a [TypeError] raised before the body runs. *)
Definition call_get_speed (self : t) (args : list R) : result R :=
  match args with
  | [distance_traveled] => get_speed self distance_traveled
  | _ => Raise TypeError
  end.

(** [get_gaze_angle(self, t)] *)
Definition get_gaze_angle (self : t) (t : R) : R :=
  if negb (gaze_enabled self) then 0
  else 15 * sin (0.5 * t).

End PathController.

(** ** Sequencing of statements that may raise *)

Module Flow.

(** The state a loop iteration ends in: either it falls through to the next
    iteration, or an exception leaves the loop body. *)
Inductive outcome (S : Type) : Type :=
| Next (s : S)
| Raised (e : exn) (s : S).
Arguments Next {S} s.
Arguments Raised {S} e s.

Definition and_then {S : Type} (o : outcome S) (k : S -> outcome S)
  : outcome S :=
  match o with
  | Next s => k s
  | Raised e s => Raised e s
  end.

Definition state_of {S : Type} (o : outcome S) : S :=
  match o with
  | Next s => s
  | Raised _ s => s
  end.

End Flow.
Import Flow.

Notation "o >>> k" := (and_then o k) (at level 55, left associativity).

(** Key codes, [ord(c)]. *)
Definition ord_space : nat := 32.
Definition ord_g : nat := 103.
Definition ord_p : nat := 112.
Definition ord_r : nat := 114.
Definition ord_s : nat := 115.

Inductive path_mode : Type := forward | leftward.

Definition switch_path_mode (m : path_mode) : path_mode :=
  match m with
  | forward => leftward
  | leftward => forward
  end.

(** [math.sqrt((current_pos[0] - initial_pos[0])**2 +
               (current_pos[1] - initial_pos[1])**2)] when [initial_pos] is
    set, and [0] when it is [None]; the same expression occurs in both
    control loops. *)
Definition displacement (initial_pos : option vec3) (current_pos : vec3) : R :=
  match initial_pos with
  | Some p0 =>
    sqrt ((nth0 current_pos - nth0 p0) ^ 2 + (nth1 current_pos - nth1 p0) ^ 2)
  | None => 0
  end.

(** The stop/resume bookkeeping on [was_stopped], written out in both
    control loops: [is_stopped = (target_speed == 0.0)], then the two
    edge-triggered branches. *)
Definition note_stop (c : PathController.t) (target_speed : R)
  : PathController.t :=
  let is_stopped := eqb target_speed 0 in
  if is_stopped && negb (PathController.was_stopped c) then
    PathController.set_was_stopped c true
  else if negb is_stopped && PathController.was_stopped c then
    PathController.set_was_stopped c false
  else c.

(** [speed_modes[current_speed_mode]], read for the console message. *)
Definition current_mode (c : PathController.t) : result string :=
  match nth_error (PathController.speed_modes c)
                  (PathController.current_speed_mode c) with
  | Some m => Ok m
  | None => Raise IndexError
  end.

(** ** [go2_gait_simulation.py]: the loop of [main] *)

Module Sim.

(** The loop state: the variables of [main] that live across iterations,
    the [PathController] object, and the calls made so far to
    [p.resetBaseVelocity] (linear, angular), oldest first.  Console output,
    the joint targets of the gait animation and the pose resets done inside
    the physics engine leave this state as it is and are left out. *)
Record Loop : Type := mk {
  commands : list (vec3 * vec3);
  pc : PathController.t;
  mode : path_mode;
  is_walking : bool;
  start_time : option R;
  initial_pos : option vec3;
  distance_traveled : option R;
  target_speed : option R
}.

(** What one iteration reads from its environment: [time.time()], the
    base position reported by the physics engine, and for each key code
    whether [ord(c) in keys and keys[ord(c)] & p.KEY_WAS_TRIGGERED]. *)
Record Input : Type := mkInput {
  current_time : R;
  position : vec3;
  triggered : nat -> bool
}.

Definition init : Loop := {|
  commands := [];
  pc := PathController.init;
  mode := leftward;
  is_walking := false;
  start_time := None;
  initial_pos := None;
  distance_traveled := None;
  target_speed := None
|}.

Definition with_commands (s : Loop) (c : list (vec3 * vec3)) : Loop :=
  mk c (pc s) (mode s) (is_walking s) (start_time s) (initial_pos s)
     (distance_traveled s) (target_speed s).
Definition with_pc (s : Loop) (c : PathController.t) : Loop :=
  mk (commands s) c (mode s) (is_walking s) (start_time s) (initial_pos s)
     (distance_traveled s) (target_speed s).
Definition with_mode (s : Loop) (m : path_mode) : Loop :=
  mk (commands s) (pc s) m (is_walking s) (start_time s) (initial_pos s)
     (distance_traveled s) (target_speed s).
Definition with_is_walking (s : Loop) (b : bool) : Loop :=
  mk (commands s) (pc s) (mode s) b (start_time s) (initial_pos s)
     (distance_traveled s) (target_speed s).
Definition with_start (s : Loop) (t : R) (p0 : vec3) : Loop :=
  mk (commands s) (pc s) (mode s) (is_walking s) (Some t) (Some p0)
     (distance_traveled s) (target_speed s).
Definition with_distance_traveled (s : Loop) (d : R) : Loop :=
  mk (commands s) (pc s) (mode s) (is_walking s) (start_time s)
     (initial_pos s) (Some d) (target_speed s).
Definition with_target_speed (s : Loop) (v : R) : Loop :=
  mk (commands s) (pc s) (mode s) (is_walking s) (start_time s)
     (initial_pos s) (distance_traveled s) (Some v).

(** [Go2Robot.set_base_velocity] *)
Definition set_base_velocity (s : Loop) (linear angular : vec3) : Loop :=
  with_commands s (commands s ++ [(linear, angular)]).

(** [Go2Robot.reset]: the base is put back and its velocity zeroed. *)
Definition reset (s : Loop) : Loop :=
  with_commands s (commands s ++ [(zero3, zero3)]).

Definition on_space (inp : Input) (s : Loop) : outcome Loop :=
  if triggered inp ord_space then
    let s := with_is_walking s (negb (is_walking s)) in
    if is_walking s then
      Next (with_pc (with_start s (current_time inp) (position inp))
                    (PathController.set_was_stopped (pc s) false))
    else Next s
  else Next s.

Definition on_p (inp : Input) (s : Loop) : outcome Loop :=
  if triggered inp ord_p then Next (with_mode s (switch_path_mode (mode s)))
  else Next s.

Definition on_s (inp : Input) (s : Loop) : outcome Loop :=
  if triggered inp ord_s then
    match List.length (PathController.speed_modes (pc s)) with
    | O => Raised ZeroDivisionError s
    | S _ as n =>
      let s := with_pc s (PathController.set_current_speed_mode (pc s)
                 ((PathController.current_speed_mode (pc s) + 1) mod n)) in
      match current_mode (pc s) with
      | Ok _ => Next s
      | Raise e => Raised e s
      end
    end
  else Next s.

Definition on_g (inp : Input) (s : Loop) : outcome Loop :=
  if triggered inp ord_g then
    let s := with_pc s (PathController.set_gaze_enabled (pc s)
               (negb (PathController.gaze_enabled (pc s)))) in
    match current_mode (pc s) with
    | Ok _ => Next s
    | Raise e => Raised e s
    end
  else Next s.

Definition on_r (inp : Input) (s : Loop) : outcome Loop :=
  if triggered inp ord_r then
    let s := reset s in
    let s := with_is_walking s false in
    let s := with_mode s leftward in
    Next (with_pc s (PathController.set_was_stopped (pc s) false))
  else Next s.

(** The body of [if is_walking and start_time is not None:]. *)
Definition walk (inp : Input) (t0 : R) (s : Loop) : outcome Loop :=
  let elapsed_time := current_time inp - t0 in
  let current_pos := position inp in
  let d := displacement (initial_pos s) current_pos in
  let s := with_distance_traveled s d in
  match PathController.call_get_speed (pc s) [d] with
  | Raise e => Raised e s
  | Ok v =>
    let s := with_target_speed s v in
    let gaze_angle := PathController.get_gaze_angle (pc s) elapsed_time in
    let s := with_pc s (note_stop (pc s) v) in
    let linear_velocity : vec3 := (0, v, 0) in
    let gaze_rad := radians gaze_angle in
    let angular_velocity : vec3 := (0, 0, gaze_rad * 0.1) in
    let s := set_base_velocity s linear_velocity angular_velocity in
    if geb d (PathController.path_length (pc s)) then
      Next (with_is_walking s false)
    else Next s
  end.

Definition walk_or_stand (inp : Input) (s : Loop) : outcome Loop :=
  match is_walking s, start_time s with
  | true, Some t0 => walk inp t0 s
  | _, _ => Next (set_base_velocity s zero3 zero3)
  end.

(** One iteration of [while True:]. *)
Definition handle_keys (inp : Input) (s : Loop) : outcome Loop :=
  on_space inp s >>> on_p inp >>> on_s inp >>> on_g inp >>> on_r inp.

Definition tick (s : Loop) (inp : Input) : outcome Loop :=
  handle_keys inp s >>> walk_or_stand inp.

(** Iterations until the inputs run out or an exception leaves the loop. *)
Fixpoint run (s : Loop) (inps : list Input) : outcome Loop :=
  match inps with
  | [] => Next s
  | inp :: rest =>
    match tick s inp with
    | Next s' => run s' rest
    | Raised e s' => Raised e s'
    end
  end.

End Sim.

(** ** [go2_gait.py]: class [Go2RealRobot] and [main] *)

Module Gait.

(** The fields of a [SportModeCmd_] that vary: [cmd.velocity] and
    [cmd.yaw_speed].  The others are the same constants in every command. *)
Record SportModeCmd : Type := mkCmd {
  velocity : vec3;
  yaw_speed : R
}.

(** A [Go2RealRobot] together with the two things it talks to: the clock
    ([now], what [time.time()] returns, in seconds) and the DDS channel
    ([published], the commands handed to [cmd_publisher.Write] with the
    time of the call, oldest first). *)
Record Robot : Type := mkRobot {
  start_pos : vec3;
  initial_yaw : R;
  current_yaw : R;
  current_position : vec3;
  is_connected : bool;
  last_cmd_time : R;
  now : R;
  published : list (R * SportModeCmd)
}.

(** [time.sleep(d)] *)
Definition sleep (r : Robot) (d : R) : Robot :=
  mkRobot (start_pos r) (initial_yaw r) (current_yaw r) (current_position r)
          (is_connected r) (last_cmd_time r) (now r + d) (published r).

Definition max_linear_speed : R := 3.5.
Definition max_angular_speed : R := 2.

(** [Go2RealRobot.set_base_velocity]: the clamped command is handed to
    [cmd_publisher.Write] and [last_cmd_time] is set to the time of the
    call. *)
Definition set_base_velocity (r : Robot) (linear_velocity angular_velocity : vec3)
  : Robot :=
  let vx := max (- max_linear_speed) (min max_linear_speed (nth0 linear_velocity)) in
  let vy := max (- max_linear_speed) (min max_linear_speed (nth1 linear_velocity)) in
  let vyaw :=
    max (- max_angular_speed) (min max_angular_speed (nth2 angular_velocity)) in
  let cmd := {| velocity := (vx, vy, vyaw); yaw_speed := vyaw |} in
  mkRobot (start_pos r) (initial_yaw r) (current_yaw r) (current_position r)
          (is_connected r) (now r) (now r) (published r ++ [(now r, cmd)]).

(** [Go2RealRobot.get_position] *)
Definition get_position (r : Robot) : vec3 := current_position r.

(** [Go2RealRobot.reset] *)
Definition reset (r : Robot) : Robot :=
  let r := set_base_velocity r zero3 zero3 in
  mkRobot (current_position r) (current_yaw r) (current_yaw r)
          (current_position r) (is_connected r) (last_cmd_time r) (now r)
          (published r).

(** The loop of [emergency_stop]: [n] rounds of a stop command followed by
    [time.sleep(0.01)]. *)
Fixpoint stop_rounds (n : nat) (r : Robot) : Robot :=
  match n with
  | O => r
  | S k => stop_rounds k (sleep (set_base_velocity r zero3 zero3) 0.01)
  end.


(** The state of [main]'s loop: the robot, the [PathController], the
    [KeyboardInput.key_events] not yet consumed, and the local variables
    that live across iterations.  Console output is left out, and so is the
    attribute [stop_start_time] that the loop attaches to the
    [PathController] and never reads. *)
Record Loop : Type := mk {
  robot : Robot;
  pc : PathController.t;
  key_events : list nat;
  mode : path_mode;
  is_walking : bool;
  start_time : option R;
  initial_pos : option vec3;
  last_status_time : R;
  distance_traveled : option R;
  target_speed : option R
}.

(** What happened between two iterations, on the other threads and on the
    clock: the time spent outside [time.sleep], the fields last written by
    the state monitor, and the key codes recorded by the keyboard
    listener. *)
Record Input : Type := mkInput {
  elapsed : R;
  fb_connected : bool;
  fb_position : vec3;
  fb_yaw : R;
  pressed : list nat
}.

Definition with_robot (s : Loop) (r : Robot) : Loop :=
  mk r (pc s) (key_events s) (mode s) (is_walking s) (start_time s)
     (initial_pos s) (last_status_time s) (distance_traveled s)
     (target_speed s).
Definition with_pc (s : Loop) (c : PathController.t) : Loop :=
  mk (robot s) c (key_events s) (mode s) (is_walking s) (start_time s)
     (initial_pos s) (last_status_time s) (distance_traveled s)
     (target_speed s).
Definition with_key_events (s : Loop) (k : list nat) : Loop :=
  mk (robot s) (pc s) k (mode s) (is_walking s) (start_time s)
     (initial_pos s) (last_status_time s) (distance_traveled s)
     (target_speed s).
Definition with_mode (s : Loop) (m : path_mode) : Loop :=
  mk (robot s) (pc s) (key_events s) m (is_walking s) (start_time s)
     (initial_pos s) (last_status_time s) (distance_traveled s)
     (target_speed s).
Definition with_is_walking (s : Loop) (b : bool) : Loop :=
  mk (robot s) (pc s) (key_events s) (mode s) b (start_time s)
     (initial_pos s) (last_status_time s) (distance_traveled s)
     (target_speed s).
Definition with_start (s : Loop) (t : R) (p0 : vec3) : Loop :=
  mk (robot s) (pc s) (key_events s) (mode s) (is_walking s) (Some t)
     (Some p0) (last_status_time s) (distance_traveled s) (target_speed s).
Definition with_last_status_time (s : Loop) (t : R) : Loop :=
  mk (robot s) (pc s) (key_events s) (mode s) (is_walking s) (start_time s)
     (initial_pos s) t (distance_traveled s) (target_speed s).
Definition with_distance_traveled (s : Loop) (d : R) : Loop :=
  mk (robot s) (pc s) (key_events s) (mode s) (is_walking s) (start_time s)
     (initial_pos s) (last_status_time s) (Some d) (target_speed s).
Definition with_target_speed (s : Loop) (v : R) : Loop :=
  mk (robot s) (pc s) (key_events s) (mode s) (is_walking s) (start_time s)
     (initial_pos s) (last_status_time s) (distance_traveled s) (Some v).

(** The variables of [main] right before [while True:]; [t0] is the
    [time.time()] stored in [last_status_time]. *)
Definition start (r : Robot) : Loop := {|
  robot := r;
  pc := PathController.init;
  key_events := [];
  mode := leftward;
  is_walking := false;
  start_time := None;
  initial_pos := None;
  last_status_time := now r;
  distance_traveled := None;
  target_speed := None
|}.

(** [robot.set_base_velocity([0, 0, 0], [0, 0, 0])] *)
Definition send_stop (s : Loop) : Loop :=
  with_robot s (set_base_velocity (robot s) zero3 zero3).

(** The effect of the other threads and of elapsed time, seen at the top of
    an iteration. *)
Definition observe (s : Loop) (inp : Input) : Loop :=
  let r := robot s in
  let r := mkRobot (start_pos r) (initial_yaw r) (fb_yaw inp) (fb_position inp)
                   (fb_connected inp) (last_cmd_time r) (now r + elapsed inp)
                   (published r) in
  with_key_events (with_robot s r) (key_events s ++ pressed inp).

Definition has_key (keys : list nat) (code : nat) : bool :=
  existsb (Nat.eqb code) keys.

Definition on_space (keys : list nat) (current_time : R) (s : Loop)
  : outcome Loop :=
  if has_key keys ord_space then
    let s := with_is_walking s (negb (is_walking s)) in
    if is_walking s then
      Next (with_pc (with_start s current_time (get_position (robot s)))
                    (PathController.set_was_stopped (pc s) false))
    else Next (send_stop s)
  else Next s.

Definition on_p (keys : list nat) (s : Loop) : outcome Loop :=
  if has_key keys ord_p then Next (with_mode s (switch_path_mode (mode s)))
  else Next s.

Definition on_s (keys : list nat) (s : Loop) : outcome Loop :=
  if has_key keys ord_s then
    match List.length (PathController.speed_modes (pc s)) with
    | O => Raised ZeroDivisionError s
    | S _ as n =>
      let s := with_pc s (PathController.set_current_speed_mode (pc s)
                 ((PathController.current_speed_mode (pc s) + 1) mod n)) in
      match current_mode (pc s) with
      | Ok _ => Next s
      | Raise e => Raised e s
      end
    end
  else Next s.

Definition on_g (keys : list nat) (s : Loop) : outcome Loop :=
  if has_key keys ord_g then
    let s := with_pc s (PathController.set_gaze_enabled (pc s)
               (negb (PathController.gaze_enabled (pc s)))) in
    match current_mode (pc s) with
    | Ok _ => Next s
    | Raise e => Raised e s
    end
  else Next s.

Definition on_r (keys : list nat) (s : Loop) : outcome Loop :=
  if has_key keys ord_r then
    let s := with_robot s (reset (robot s)) in
    let s := with_is_walking s false in
    let s := with_mode s leftward in
    Next (with_pc s (PathController.set_was_stopped (pc s) false))
  else Next s.

(** The heading error of the P-controller: the target yaw is [0] in
    forward mode and [math.pi / 2] in leftward mode. *)
Definition yaw_error (m : path_mode) (current_yaw : R) : R :=
  match m with
  | forward => - current_yaw
  | leftward => PI / 2 - current_yaw
  end.

(** [max(-0.5, min(0.5, yaw_error * 0.5))] *)
Definition yaw_correction (m : path_mode) (current_yaw : R) : R :=
  max (-0.5) (min 0.5 (yaw_error m current_yaw * 0.5)).

Definition linear_velocity (m : path_mode) (target_speed : R) : vec3 :=
  match m with
  | forward => (target_speed, 0, 0)
  | leftward => (0, target_speed, 0)
  end.

(** The walking branch from the line after the [get_speed] call on. *)
Definition walk_on (current_time elapsed_time d v : R) (s : Loop)
  : outcome Loop :=
  let s := with_target_speed s v in
  let gaze_angle := PathController.get_gaze_angle (pc s) elapsed_time in
  let s := with_pc s (note_stop (pc s) v) in
  let s := if gtb (current_time - last_status_time s) 2 && gtb v 0
           then with_last_status_time s current_time else s in
  let gaze_rad :=
    if PathController.gaze_enabled (pc s) then radians gaze_angle else 0 in
  let angular_velocity : vec3 :=
    (0, 0, yaw_correction (mode s) (current_yaw (robot s)) + gaze_rad * 0.1) in
  let s := with_robot s (set_base_velocity (robot s)
                           (linear_velocity (mode s) v) angular_velocity) in
  if geb d (PathController.path_length (pc s)) then
    Next (with_is_walking (send_stop s) false)
  else Next s.

(** The body of [if is_walking and start_time is not None:]. *)
Definition walk (current_time t0 : R) (s : Loop) : outcome Loop :=
  let elapsed_time := current_time - t0 in
  let current_pos := get_position (robot s) in
  let d := displacement (initial_pos s) current_pos in
  let s := with_distance_traveled s d in
  match PathController.call_get_speed (pc s) [d; current_time] with
  | Raise e => Raised e s
  | Ok v => walk_on current_time elapsed_time d v s
  end.

Definition walk_or_stand (current_time : R) (s : Loop) : outcome Loop :=
  match is_walking s, start_time s with
  | true, Some t0 => walk current_time t0 s
  | _, _ => Next (send_stop s)
  end.

Definition tick_period : R := 0.02.
Definition reconnect_period : R := 1.

(** The watchdog branch: [is_walking = False], a stop command, a one
    second sleep, [continue]. *)
Definition reconnect (s : Loop) : Loop :=
  let s := with_is_walking s false in
  let s := send_stop s in
  with_robot s (sleep (robot s) reconnect_period).

(** The heartbeat. *)
Definition heartbeat (current_time : R) (s : Loop) : Loop :=
  if gtb (current_time - last_cmd_time (robot s)) 0.5 then send_stop s
  else s.

Definition handle_keys (keys : list nat) (current_time : R) (s : Loop)
  : outcome Loop :=
  on_space keys current_time s >>> on_p keys >>> on_s keys >>> on_g keys
    >>> on_r keys.

(** [time.sleep(0.02)] at the end of an iteration. *)
Definition pace (s : Loop) : outcome Loop :=
  Next (with_robot s (sleep (robot s) tick_period)).

(** One iteration of [while True:]. *)
Definition tick (s : Loop) (inp : Input) : outcome Loop :=
  let s := observe s inp in
  let current_time := now (robot s) in
  if negb (is_connected (robot s)) then Next (reconnect s)
  else
    let s := heartbeat current_time s in
    let keys := key_events s in
    let s := with_key_events s [] in
    handle_keys keys current_time s >>> walk_or_stand current_time >>> pace.

Fixpoint run (s : Loop) (inps : list Input) : outcome Loop :=
  match inps with
  | [] => Next s
  | inp :: rest =>
    match tick s inp with
    | Next s' => run s' rest
    | Raised e s' => Raised e s'
    end
  end.

(** The [except] clauses and the [finally] clause of [main].  [robot] is
    [None] when the constructor did not return.  [rounds] is the number of
    rounds of [emergency_stop] that complete before a further interrupt
    aborts the handler ([10] or more: the handler completes); the [finally]
    clause runs in either case. *)
Definition handler (robot : option Robot) (e : exn) (rounds : nat)
  : option Robot :=
  match robot with
  | None => None
  | Some r =>
    match e with
    | KeyboardInterrupt => Some (stop_rounds (Nat.min rounds 10) r)
    | _ => if is_Exception e then Some (stop_rounds (Nat.min rounds 10) r)
           else Some r
    end
  end.

Definition finally (robot : option Robot) : option Robot :=
  match robot with
  | None => None
  | Some r => Some (set_base_velocity r zero3 zero3)
  end.

Definition shutdown (robot : option Robot) (e : exn) (rounds : nat)
  : option Robot :=
  finally (handler robot e rounds).

(** [main] from [robot = None] on.  [ctor] is what
    [Go2RealRobot(network_interface)] does; the loop has no exit of its
    own, so when it has consumed [inps] without raising, the signal [sig]
    ends it. *)
Definition main (ctor : result Robot) (inps : list Input) (sig : exn)
    (rounds : nat) : option Robot :=
  match ctor with
  | Raise e => shutdown None e rounds
  | Ok r =>
    match run (start r) inps with
    | Raised e s => shutdown (Some (robot s)) e rounds
    | Next s => shutdown (Some (robot s)) sig rounds
    end
  end.

(** The last command handed to the transport. *)
Definition last_published (r : Robot) : option SportModeCmd :=
  match rev (published r) with
  | [] => None
  | (_, c) :: _ => Some c
  end.

Definition zero_cmd : SportModeCmd := {| velocity := zero3; yaw_speed := 0 |}.

End Gait.

(** ** [go2control_system.py] *)

Module Unified.

(** [RobotState] *)
Record RobotState : Type := mkState {
  position : vec3;
  orientation : R;
  velocity : R;
  is_moving : bool;
  distance_traveled : R;
  mode : string
}.

Inductive planner : Type :=
| StraightPathPlanner (path_length gaze_smoothing : R)
| AdaptivePathPlanner (path_length : R).

(** [StraightPathPlanner()] with its default argument. *)
Definition straight_default : planner := StraightPathPlanner 10 0.1.

Definition path_length_of (p : planner) : R :=
  match p with
  | StraightPathPlanner l _ => l
  | AdaptivePathPlanner l => l
  end.

(** [StraightPathPlanner.calculate_next_position] *)
Definition straight_next_position (st : RobotState) (dt : R) : vec3 :=
  if negb (is_moving st) then position st
  else
    let '(dx, dy) :=
      if (mode st =? "rightward")%string then (velocity st * dt, 0)
      else (0, velocity st * dt) in
    (nth0 (position st) + dx, nth1 (position st), nth2 (position st) + dy).

(** The loop [while yaw_diff > 180: yaw_diff -= 360], run for at most
    [fuel] iterations. *)
Fixpoint while_above (fuel : nat) (yaw_diff : R) : R :=
  match fuel with
  | O => yaw_diff
  | S k => if gtb yaw_diff 180 then while_above k (yaw_diff - 360)
           else yaw_diff
  end.

(** The loop [while yaw_diff < -180: yaw_diff += 360]. *)
Fixpoint while_below (fuel : nat) (yaw_diff : R) : R :=
  match fuel with
  | O => yaw_diff
  | S k => if ltb yaw_diff (-180) then while_below k (yaw_diff + 360)
           else yaw_diff
  end.

(** A number of iterations after which either loop has left: one more than
    the turns contained in [yaw_diff]. *)
Definition turns (yaw_diff : R) : nat :=
  S (Z.to_nat (up (Rabs yaw_diff / 360))).

(** "Normalize angle difference to [-180, 180]": the two loops in
    sequence. *)
Definition normalize (yaw_diff : R) : R :=
  let d := while_above (turns yaw_diff) yaw_diff in
  while_below (turns d) d.

(** [StraightPathPlanner.calculate_orientation] *)
Definition straight_orientation (gaze_smoothing : R) (st : RobotState)
    (target_gaze : R) : R :=
  let current_yaw := orientation st in
  let yaw_diff := normalize (target_gaze - current_yaw) in
  current_yaw + yaw_diff * gaze_smoothing.

(** [calculate_next_position] of either planner; [time_factor] is the
    [time.time()] the adaptive planner reads. *)
Definition calculate_next_position (p : planner) (time_factor : R)
    (st : RobotState) (dt : R) : vec3 :=
  match p with
  | StraightPathPlanner _ _ => straight_next_position st dt
  | AdaptivePathPlanner _ =>
    if negb (is_moving st) then position st
    else
      let base_movement := straight_next_position st dt in
      let sway_amplitude := 0.02 in
      let sway_frequency := 1.5 in
      let offset := sin (time_factor * sway_frequency * 2 * PI) * sway_amplitude in
      if (mode st =? "forward")%string then
        (nth0 base_movement + offset, nth1 base_movement, nth2 base_movement)
      else
        (nth0 base_movement, nth1 base_movement, nth2 base_movement + offset)
  end.

(** [calculate_orientation] of either planner. *)
Definition calculate_orientation (p : planner) (time_factor : R)
    (st : RobotState) (target_gaze : R) : R :=
  match p with
  | StraightPathPlanner _ g => straight_orientation g st target_gaze
  | AdaptivePathPlanner _ =>
    straight_orientation 0.1 st target_gaze + sin (time_factor * 0.5) * 5
  end.

(** [json] command of [UnitySimulationController.send_movement_command]. *)
Record UnityCommand : Type := mkUnityCommand {
  u_velocity : vec3;
  u_yawRate : R;
  u_speed : R;
  u_mode : string;
  u_gazeAngle : R;
  u_isMoving : bool
}.

(** The fields of [HighCmd] that [RealGo2Controller] writes after
    [connect]. *)
Record HighCmd : Type := mkHighCmd {
  h_velocity : R * R;
  h_yawSpeed : R
}.

(** The transport of a controller: for the Unity controller its
    [is_connected] flag and the datagrams handed to [sendto], oldest
    first; for the real robot its flag and the command buffer [cmd] that
    the 100 Hz thread transmits ([None] before [connect]). *)
Inductive link : Type :=
| Unity (is_connected : bool) (sent : list UnityCommand)
| Real (is_connected : bool) (cmd : option HighCmd).

(** [RobotControllerBase] and its two subclasses. *)
Record Controller : Type := mkController {
  current_state : RobotState;
  target_speed : R;
  target_gaze : R;
  path_planner : planner;
  transport : link
}.

Definition with_state (c : Controller) (st : RobotState) : Controller :=
  mkController st (target_speed c) (target_gaze c) (path_planner c)
               (transport c).
Definition with_transport (c : Controller) (l : link) : Controller :=
  mkController (current_state c) (target_speed c) (target_gaze c)
               (path_planner c) l.

Definition set_is_moving (st : RobotState) (b : bool) : RobotState :=
  mkState (position st) (orientation st) (velocity st) b
          (distance_traveled st) (mode st).

(** [RobotControllerBase.__init__] *)
Definition initial_state : RobotState := {|
  position := zero3;
  orientation := 0;
  velocity := 0;
  is_moving := false;
  distance_traveled := 0;
  mode := "forward"
|}.

(** [RobotControllerBase.update]; no class defines the [stop_movement]
    it calls at the end of the path, so that call is an
    [AttributeError]. *)
Definition update (c : Controller) (time_factor dt : R) : outcome Controller :=
  let st := current_state c in
  if is_moving st then
    let new_position :=
      calculate_next_position (path_planner c) time_factor st dt in
    let dx := nth0 new_position - nth0 (position st) in
    let dz := nth2 new_position - nth2 (position st) in
    let distance_delta := sqrt (dx * dx + dz * dz) in
    let st := mkState (position st) (orientation st) (velocity st)
                      (is_moving st) (distance_traveled st + distance_delta)
                      (mode st) in
    let st := mkState new_position (orientation st) (velocity st)
                      (is_moving st) (distance_traveled st) (mode st) in
    let st := mkState (position st)
                      (calculate_orientation (path_planner c) time_factor st
                                             (target_gaze c))
                      (velocity st) (is_moving st) (distance_traveled st)
                      (mode st) in
    let c := with_state c st in
    if geb (distance_traveled st) (path_length_of (path_planner c)) then
      Raised AttributeError c
    else Next c
  else Next c.

(** [send_movement_command] of the two subclasses. *)
Definition send_movement_command (c : Controller) (velocity : vec3)
    (yaw_rate : R) : Controller :=
  match transport c with
  | Unity connected sent =>
    if negb connected then c
    else
      let command := {|
        u_velocity := velocity;
        u_yawRate := yaw_rate;
        u_speed := target_speed c;
        u_mode := mode (current_state c);
        u_gazeAngle := target_gaze c;
        u_isMoving := is_moving (current_state c)
      |} in
      with_transport c (Unity connected (sent ++ [command]))
  | Real connected cmd =>
    match cmd with
    | Some old =>
      if negb connected then c
      else
        let v :=
          if (mode (current_state c) =? "rightward")%string
          then (0, - nth0 velocity)
          else (nth2 velocity, 0) in
        with_transport c (Real connected (Some (mkHighCmd v yaw_rate)))
    | None => c
    end
  end.

(** The body of [UnitySimulationController._receive_loop] for one status
    datagram that holds the three keys it reads. *)
Definition receive_status (c : Controller) (position : vec3)
    (orientation distanceTraveled : R) : Controller :=
  let st := current_state c in
  with_state c (mkState position orientation (velocity st) (is_moving st)
                        distanceTraveled (mode st)).

(** [UnifiedGo2Controller] *)
Record t : Type := mk {
  controller : Controller;
  is_running : bool;
  speed : R;
  gaze_angle : R;
  movement_mode : string;
  update_thread : bool
}.

Definition with_controller (u : t) (c : Controller) : t :=
  mk c (is_running u) (speed u) (gaze_angle u) (movement_mode u)
     (update_thread u).

(** [UnifiedGo2Controller.__init__] around a freshly built controller. *)
Definition create (l : link) : t := {|
  controller := mkController initial_state 0.5 0 straight_default l;
  is_running := false;
  speed := 0.5;
  gaze_angle := 0;
  movement_mode := "forward";
  update_thread := false
|}.

(** [UnifiedGo2Controller.start] *)
Definition start (u : t) : t :=
  let c := controller u in
  let st := current_state c in
  let st := mkState (position st) (orientation st) (velocity st) true
                    (distance_traveled st) (movement_mode u) in
  let c := mkController st (speed u) (gaze_angle u) (path_planner c)
                        (transport c) in
  mk c true (speed u) (gaze_angle u) (movement_mode u) true.

(** [UnifiedGo2Controller.stop] *)
Definition stop (u : t) : t :=
  let c := controller u in
  let c := with_state c (set_is_moving (current_state c) false) in
  let c := send_movement_command c (0, 0, 0) 0 in
  mk c false (speed u) (gaze_angle u) (movement_mode u) (update_thread u).

(** [UnifiedGo2Controller.reset] *)
Definition reset (u : t) : t :=
  let u := stop u in
  let c := controller u in
  let st := current_state c in
  let st := mkState (0, 0, 0) 0 (velocity st) (is_moving st) 0 (mode st) in
  with_controller u (with_state c st).

(** [UnifiedGo2Controller.set_speed] *)
Definition set_speed (u : t) (v : R) : t :=
  let new_speed := max 0.1 (min 2 v) in
  let c := controller u in
  let c := mkController (current_state c) new_speed (target_gaze c)
                        (path_planner c) (transport c) in
  mk c (is_running u) new_speed (gaze_angle u) (movement_mode u)
     (update_thread u).

(** One iteration of [_update_loop] after its [while self.is_running]
    test. *)
Definition update_loop_iteration (u : t) (time_factor : R) : outcome t :=
  let dt := 0.01 in
  match update (controller u) time_factor dt with
  | Raised e c => Raised e (with_controller u c)
  | Next c =>
    if is_moving (current_state c) then
      let velocity : vec3 :=
        if (movement_mode u =? "rightward")%string then (speed u, 0, 0)
        else (0, 0, speed u) in
      let yaw_error := gaze_angle u - orientation (current_state c) in
      let yaw_rate := yaw_error * 0.1 in
      Next (with_controller u (send_movement_command c velocity yaw_rate))
    else Next (with_controller u c)
  end.

(** [UnifiedGo2Controller.set_mode]: a mode outside the two known ones is
    ignored. *)
Definition set_mode (u : t) (m : string) : t :=
  if ((m =? "forward") || (m =? "rightward"))%string then
    let c := controller u in
    let st := current_state c in
    let st := mkState (position st) (orientation st) (velocity st)
                      (is_moving st) (distance_traveled st) m in
    mk (with_state c st) (is_running u) (speed u) (gaze_angle u) m
       (update_thread u)
  else u.

(** [UnifiedGo2Controller.set_gaze] *)
Definition set_gaze (u : t) (angle : R) : t :=
  let new_gaze := max (-90) (min 90 angle) in
  let c := controller u in
  let c := mkController (current_state c) (target_speed c) new_gaze
                        (path_planner c) (transport c) in
  mk c (is_running u) (speed u) new_gaze (movement_mode u) (update_thread u).

(** [disconnect] of the two controllers: the flag is cleared; the real
    robot's command buffer, when there is one, is zeroed and sent a last
    time. *)
Definition controller_disconnect (c : Controller) : Controller :=
  match transport c with
  | Unity _ sent => with_transport c (Unity false sent)
  | Real _ cmd =>
    with_transport c
      (Real false (match cmd with
                   | Some _ => Some (mkHighCmd (0, 0) 0)
                   | None => None
                   end))
  end.

(** [UnifiedGo2Controller.disconnect] *)
Definition disconnect (u : t) : t :=
  let u := stop u in
  with_controller u (controller_disconnect (controller u)).

(** The commands of the prompt loop under [if __name__ == "__main__":], the
    line already split and its number parsed. *)
Inductive command : Type :=
| Start
| Stop
| Reset
| SetSpeed (v : R)
| SetMode (m : string)
| SetGaze (a : R)
| Status
| Other.

Definition dispatch (u : t) (cmd : command) : t :=
  match cmd with
  | Start => start u
  | Stop => stop u
  | Reset => reset u
  | SetSpeed v => set_speed u v
  | SetMode m => set_mode u m
  | SetGaze a => set_gaze u a
  | Status | Other => u
  end.

(** What happens to a controller over time: an operator command, or one
    iteration of the update thread ([time_factor] is the clock it reads),
    taken to run between two commands.  An iteration that raises ends with
    the state it had reached. *)
Inductive event : Type :=
| Operator (cmd : command)
| UpdateIteration (time_factor : R).

Definition step (u : t) (ev : event) : t :=
  match ev with
  | Operator cmd => dispatch u cmd
  | UpdateIteration time_factor =>
    if is_running u then state_of (update_loop_iteration u time_factor)
    else u
  end.

Definition play (u : t) (evs : list event) : t := fold_left step evs u.

End Unified.

(** ** [pyCLI.py] *)

Module CLI.

Inductive MovementMode : Type := FORWARD | RIGHTWARD.

(** The dictionary given to [send_command]. *)
Record Command : Type := mkCommand {
  c_speed : R;
  c_mode : MovementMode;
  c_gazeAngle : R;
  c_start : bool;
  c_stop : bool;
  c_reset : bool
}.

(** [Go2Controller]: the operator-set fields and the datagrams handed to
    [send_socket.sendto], oldest first. *)
Record Go2Controller : Type := mk {
  speed : R;
  mode : MovementMode;
  gaze_angle : R;
  is_moving : bool;
  sent : list Command
}.

(** [__init__] *)
Definition create : Go2Controller := {|
  speed := 0.5;
  mode := FORWARD;
  gaze_angle := 0;
  is_moving := false;
  sent := []
|}.

Definition send_command (c : Go2Controller) (command : Command)
  : Go2Controller :=
  mk (speed c) (mode c) (gaze_angle c) (is_moving c) (sent c ++ [command]).

Definition set_is_moving (c : Go2Controller) (b : bool) : Go2Controller :=
  mk (speed c) (mode c) (gaze_angle c) b (sent c).

Definition start_movement (c : Go2Controller) : Go2Controller :=
  let c := set_is_moving c true in
  send_command c (mkCommand (speed c) (mode c) (gaze_angle c) true false false).

Definition stop_movement (c : Go2Controller) : Go2Controller :=
  let c := set_is_moving c false in
  send_command c (mkCommand 0 (mode c) (gaze_angle c) false true false).

Definition reset_position (c : Go2Controller) : Go2Controller :=
  let c := set_is_moving c false in
  send_command c (mkCommand 0 (mode c) (gaze_angle c) false false true).

Definition update_movement (c : Go2Controller) : Go2Controller :=
  send_command c (mkCommand (speed c) (mode c) (gaze_angle c) false false false).

Definition set_speed (c : Go2Controller) (v : R) : Go2Controller :=
  let c := mk (max 0.1 (min 2 v)) (mode c) (gaze_angle c) (is_moving c)
              (sent c) in
  if is_moving c then update_movement c else c.

Definition set_mode (c : Go2Controller) (m : MovementMode) : Go2Controller :=
  let c := mk (speed c) m (gaze_angle c) (is_moving c) (sent c) in
  if is_moving c then update_movement c else c.

Definition set_gaze_angle (c : Go2Controller) (angle : R) : Go2Controller :=
  let c := mk (speed c) (mode c) (max (-90) (min 90 angle)) (is_moving c)
              (sent c) in
  if is_moving c then update_movement c else c.

(** The table of [run_preset]: speed, mode, gaze. *)
Definition presets (name : string) : option (R * MovementMode * R) :=
  if (name =? "baseline")%string then Some (0.5, FORWARD, 0)
  else if (name =? "slow_forward")%string then Some (0.3, FORWARD, 0)
  else if (name =? "fast_forward")%string then Some (1, FORWARD, 0)
  else if (name =? "rightward_facing")%string then Some (0.5, RIGHTWARD, 0)
  else if (name =? "rightward_glancing")%string then Some (0.5, RIGHTWARD, 30)
  else if (name =? "approach_direct")%string then Some (0.4, FORWARD, 0)
  else if (name =? "approach_averted")%string then Some (0.4, FORWARD, 45)
  else None.

Definition run_preset (c : Go2Controller) (name : string) : Go2Controller :=
  match presets name with
  | None => c
  | Some (v, m, g) =>
    let c := reset_position c in
    let c := set_speed c v in
    let c := set_mode c m in
    let c := set_gaze_angle c g in
    start_movement c
  end.

(** What one round of the prompt loop of [main] meets: a line already split
    and recognised, or an exception out of [input()].  A numeric argument
    is [None] when [float] rejects it, a mode is [None] when it is neither
    spelling of the two modes. *)
Inductive round : Type :=
| Blank
| Quit
| Help
| Start
| Stop
| Reset
| Status
| Speed (v : option R)
| Mode (m : option MovementMode)
| Gaze (a : option R)
| Run (name : string)
| Unknown
| Fails (e : exn).

Definition dispatch (c : Go2Controller) (r : round) : Go2Controller :=
  match r with
  | Start => start_movement c
  | Stop => stop_movement c
  | Reset => reset_position c
  | Speed (Some v) => set_speed c v
  | Mode (Some m) => set_mode c m
  | Gaze (Some a) => set_gaze_angle c a
  | Run name => run_preset c name
  | _ => c
  end.

(** The [while True:] of [main]: [quit] breaks, a [KeyboardInterrupt] is
    caught and the loop continues, any other exception leaves the loop; the
    loop also ends where the rounds do. *)
Fixpoint loop (c : Go2Controller) (rounds : list round) : Go2Controller :=
  match rounds with
  | [] => c
  | Quit :: _ => c
  | Fails KeyboardInterrupt :: rest => loop c rest
  | Fails _ :: _ => c
  | r :: rest => loop (dispatch c r) rest
  end.

(** The [finally] clause of [main]. *)
Definition finally (c : Go2Controller) : Go2Controller := stop_movement c.

Definition main (rounds : list round) : Go2Controller :=
  finally (loop create rounds).

Definition last_sent (c : Go2Controller) : option Command :=
  match rev (sent c) with
  | [] => None
  | x :: _ => Some x
  end.

End CLI.

(** ** The specification's vocabulary *)

Module Spec.

(** The named speed policies of the specification's table. *)
Inductive policy : Type :=
| ramp_up
| ramp_down
| step_up_at_half
| step_down_at_half
| pause_slow
| pause_fast.

Definition clamp (lo hi x : R) : R := Rmax lo (Rmin hi x).

(** The table: speed as a function of distance [d] on a path of length
    [L]. *)
Definition table (L : R) (p : policy) (d : R) : R :=
  match p with
  | ramp_up => 1 + (d / L) * 2
  | ramp_down => 3 - (d / L) * 2
  | step_up_at_half => if Rlt_dec d (L * 8 / 15) then 1 else 3
  | step_down_at_half => if Rlt_dec d 8 then 3 else 1
  | pause_slow =>
    if Rlt_dec d 8 then 1 else if Rlt_dec d 8.5 then 0 else 1
  | pause_fast =>
    if Rlt_dec d 8 then 3 else if Rlt_dec d 8.5 then 0 else 3
  end.

(** [SpeedProfile.evaluate]: the distance is clamped to [[0, L]] before the
    table is read and the output to [[0, max_linear_speed]] after. *)
Definition evaluate (L max_linear_speed : R) (p : policy) (d : R) : R :=
  clamp 0 max_linear_speed (table L p (clamp 0 L d)).

(** The position of a policy in [PathController.speed_modes]. *)
Definition index (p : policy) : nat :=
  match p with
  | ramp_up => 0
  | ramp_down => 1
  | step_up_at_half => 2
  | step_down_at_half => 3
  | pause_slow => 4
  | pause_fast => 5
  end.



(** The heading error wrapped to (-PI, PI]: the representative of
    [target - current] modulo a full turn, by the number of turns [k]. *)
Definition wrapped (target current : R) (e : R) : Prop :=
  - PI < e <= PI /\ exists k : Z, e = target - current + IZR k * (2 * PI).



(** A burst of [n] zero-velocity commands, one every 10 ms from time
    [t] on, as the transport records them. *)
Definition burst_from (t : R) (n : nat) : list (R * Gait.SportModeCmd) :=
  map (fun k => (t + INR k * 0.01, Gait.zero_cmd)) (seq 0 n).


(** The heading error wrapped to (-180, 180] where angles are in degrees,
    as they are in the unified controller. *)
Definition wrapped_degrees (target current : R) (e : R) : Prop :=
  -180 < e <= 180 /\ exists k : Z, e = target - current + IZR k * 360.

End Spec.

(** ** [protocolManager.py]: class [StudyProtocol] *)

Module Protocol.

Record MarkerPosition : Type := mkMarker {
  id : string;
  distance_from_path : R;
  position_along_path : R
}.

Record TrialCondition : Type := mkCondition {
  trial_id : nat;
  marker_id : string;
  robot_speed : R;
  movement_mode : string;
  gaze_angle : R;
  description : string
}.

(** The lists of a [StudyProtocol] that the trial sequence is built from. *)
Record StudyProtocol : Type := mk {
  markers : list MarkerPosition;
  conditions : list TrialCondition
}.

(** The decimal numeral of an f-string field. *)
Definition decimal (n : nat) : string :=
  NilEmpty.string_of_uint (Nat.to_uint n).

(** The body of the inner loop of [_setup_default_markers], on the pair of
    [self.markers] and the counter [marker_id]. *)
Definition add_marker (dist : R) (acc : list MarkerPosition * nat) (pos : R)
  : list MarkerPosition * nat :=
  (fst acc ++ [mkMarker ("M" ++ decimal (snd acc)) dist pos], S (snd acc)).

(** [_setup_default_markers] *)
Definition setup_default_markers (markers : list MarkerPosition)
  : list MarkerPosition :=
  let distances := [1; 2; 3; 5] in
  let positions := [2.5; 5; 7.5] in
  fst (fold_left (fun acc dist => fold_left (add_marker dist) positions acc)
                 distances (markers, 1%nat)).

Definition conditions_config : list (R * string * R * string) :=
  [(0.5, "forward", 0, "Baseline forward");
   (0.3, "forward", 0, "Slow forward");
   (1, "forward", 0, "Fast forward");
   (0.5, "forward", 30, "Forward with side glance");
   (0.5, "forward", -30, "Forward looking away");
   (0.5, "rightward", 0, "Rightward facing participant");
   (0.5, "rightward", 45, "Rightward partial gaze");
   (0.3, "rightward", 0, "Slow rightward facing");
   (0.4, "forward", 0, "Direct approach");
   (0.4, "forward", 45, "Approach with averted gaze")]%string.

(** [_setup_default_conditions]: [enumerate(conditions_config, 1)]. *)
Definition setup_default_conditions (conditions : list TrialCondition)
  : list TrialCondition :=
  conditions
  ++ map (fun ic : nat * (R * string * R * string) =>
            let '(i, (speed, mode, gaze, desc)) := ic in
            mkCondition i "" speed mode gaze desc)
         (combine (seq 1 (List.length conditions_config)) conditions_config).

(** [__init__] *)
Definition create : StudyProtocol :=
  mk (setup_default_markers []) (setup_default_conditions []).

(** The body of the inner loop of [get_trial_sequence], on the pair of
    [trials] and [trial_counter]. *)
Definition add_trial (marker : MarkerPosition)
    (acc : list TrialCondition * nat) (condition : TrialCondition)
  : list TrialCondition * nat :=
  (fst acc
   ++ [mkCondition (snd acc) (id marker) (robot_speed condition)
         (movement_mode condition) (gaze_angle condition)
         (description condition ++ " @ " ++ id marker)],
   S (snd acc)).

(** The two nested loops of [get_trial_sequence]. *)
Definition all_trials (self : StudyProtocol) : list TrialCondition :=
  fst (fold_left
         (fun acc marker => fold_left (add_trial marker) (conditions self) acc)
         (markers self) ([], 1%nat)).

(** [get_trial_sequence]; [shuffle] is what [random.shuffle] does to the
    list on this call.  Writing the sequence to its file is left out. *)
Definition get_trial_sequence
    (shuffle : list TrialCondition -> list TrialCondition)
    (self : StudyProtocol) (randomize : bool) : list TrialCondition :=
  let trials := all_trials self in
  if randomize then shuffle trials else trials.

(** [get_marker_info] *)
Fixpoint find_marker (markers : list MarkerPosition) (marker_id : string)
  : option MarkerPosition :=
  match markers with
  | [] => None
  | marker :: rest =>
    if (id marker =? marker_id)%string then Some marker
    else find_marker rest marker_id
  end.

Definition get_marker_info (self : StudyProtocol) (marker_id : string)
  : option MarkerPosition :=
  find_marker (markers self) marker_id.

End Protocol.

(** ** Vocabulary of the further properties *)

Module Obs.

(** A command within the limits of [set_base_velocity]. *)
Definition within_limits (c : Gait.SportModeCmd) : Prop :=
  Rabs (nth0 (Gait.velocity c)) <= Gait.max_linear_speed
  /\ Rabs (nth1 (Gait.velocity c)) <= Gait.max_linear_speed
  /\ Rabs (nth2 (Gait.velocity c)) <= Gait.max_angular_speed
  /\ Gait.yaw_speed c = nth2 (Gait.velocity c).

(** The robot [r'] has been sent what [r] had, then stop commands only. *)
Definition only_stops (r r' : Gait.Robot) : Prop :=
  exists zs : list (R * Gait.SportModeCmd),
    Gait.published r' = Gait.published r ++ zs
    /\ Forall (fun tc => snd tc = Gait.zero_cmd) zs.

Definition loop_only_stops (s s' : Gait.Loop) : Prop :=
  only_stops (Gait.robot s) (Gait.robot s').

Definition same_key_events (s s' : Gait.Loop) : Prop :=
  Gait.key_events s' = Gait.key_events s.

(** A [PathController] as [__init__] builds it, up to the fields the loops
    assign: the speed mode index stays inside the list. *)
Definition pc_ok (c : PathController.t) : Prop :=
  PathController.path_length c = 15
  /\ PathController.speed_modes c
     = PathController.speed_modes PathController.init
  /\ (PathController.current_speed_mode c < 6)%nat.

(** A state of the real-robot loop with a sound [PathController] and the
    robot fed back at position [p] with yaw [y]. *)
Definition gait_ready (p : vec3) (y : R) (s : Gait.Loop) : Prop :=
  pc_ok (Gait.pc s)
  /\ Gait.current_position (Gait.robot s) = p
  /\ Gait.current_yaw (Gait.robot s) = y.

(** [n] presses of the key S, each in an iteration of its own, as the
    handler of the simulation loop sees them. *)
Fixpoint press_s (inp : Sim.Input) (n : nat) (s : Sim.Loop)
  : outcome Sim.Loop :=
  match n with
  | O => Next s
  | S k => Sim.on_s inp s >>> press_s inp k
  end.

(** Two states of the simulation loop that differ at most in the path
    mode. *)
Definition same_but_mode (s1 s2 : Sim.Loop) : Prop :=
  Sim.commands s1 = Sim.commands s2
  /\ Sim.pc s1 = Sim.pc s2
  /\ Sim.is_walking s1 = Sim.is_walking s2
  /\ Sim.start_time s1 = Sim.start_time s2
  /\ Sim.initial_pos s1 = Sim.initial_pos s2
  /\ Sim.distance_traveled s1 = Sim.distance_traveled s2
  /\ Sim.target_speed s1 = Sim.target_speed s2.

Definition same_outcome_but_mode (o1 o2 : outcome Sim.Loop) : Prop :=
  match o1, o2 with
  | Next s1, Next s2 => same_but_mode s1 s2
  | Raised e1 s1, Raised e2 s2 => e1 = e2 /\ same_but_mode s1 s2
  | _, _ => False
  end.

(** The last call to [p.resetBaseVelocity]. *)
Definition last_command (s : Sim.Loop) : option (vec3 * vec3) :=
  match rev (Sim.commands s) with
  | [] => None
  | c :: _ => Some c
  end.

(** Whether the simulator has been told to move, read off the datagrams of
    the command line controller in order: [start] sets it, [stop] and
    [reset] clear it, a parameter update leaves it. *)
Definition moving_after (sent : list CLI.Command) : bool :=
  fold_left (fun b c => if CLI.c_start c then true
                        else if CLI.c_stop c || CLI.c_reset c then false
                        else b)
            sent false.

(** The ranges the command line controller keeps its parameters in. *)
Definition cli_command_ok (c : CLI.Command) : Prop :=
  (CLI.c_speed c = 0 \/ 0.1 <= CLI.c_speed c <= 2)
  /\ -90 <= CLI.c_gazeAngle c <= 90.

Definition cli_ok (c : CLI.Go2Controller) : Prop :=
  0.1 <= CLI.speed c <= 2
  /\ -90 <= CLI.gaze_angle c <= 90
  /\ Forall cli_command_ok (CLI.sent c)
  /\ CLI.is_moving c = moving_after (CLI.sent c).

(** What the operator commands and the update thread keep true of a unified
    controller. *)
Definition unified_ok (u : Unified.t) : Prop :=
  0.1 <= Unified.speed u <= 2
  /\ -90 <= Unified.gaze_angle u <= 90
  /\ Unified.target_speed (Unified.controller u) = Unified.speed u
  /\ Unified.target_gaze (Unified.controller u) = Unified.gaze_angle u
  /\ (Unified.movement_mode u = "forward"%string
      \/ Unified.movement_mode u = "rightward"%string)
  /\ Unified.mode (Unified.current_state (Unified.controller u))
     = Unified.movement_mode u
  /\ Unified.is_moving (Unified.current_state (Unified.controller u))
     = Unified.is_running u.

End Obs.

(** * Properties *)

(** ** Comparisons and clamps *)

Ltac by_cases_on_order :=
  unfold Py.max, Py.min, Py.gtb, Py.ltb, Py.geb, Py.eqb in *;
  repeat match goal with
         | |- context [Rlt_dec ?a ?b] => destruct (Rlt_dec a b)
         | |- context [Rle_dec ?a ?b] => destruct (Rle_dec a b)
         | |- context [Req_dec_T ?a ?b] => destruct (Req_dec_T a b)
         | H : context [Rlt_dec ?a ?b] |- _ => destruct (Rlt_dec a b)
         | H : context [Rle_dec ?a ?b] |- _ => destruct (Rle_dec a b)
         end;
  try reflexivity; try lra.

Lemma ltb_true (x y : R) : x < y -> ltb x y = true.
Proof. intros H. by_cases_on_order. Qed.

Lemma ltb_false (x y : R) : y <= x -> ltb x y = false.
Proof. intros H. by_cases_on_order. Qed.

Lemma geb_true (x y : R) : y <= x -> geb x y = true.
Proof. intros H. by_cases_on_order. Qed.

Lemma geb_false (x y : R) : x < y -> geb x y = false.
Proof. intros H. by_cases_on_order. Qed.

Lemma eqb_false (x y : R) : x <> y -> eqb x y = false.
Proof. intros H. by_cases_on_order. Qed.

Lemma max_is_Rmax (a b : R) : max a b = Rmax a b.
Proof.
  unfold Rmax. destruct (Rle_dec a b); by_cases_on_order.
Qed.

Lemma min_is_Rmin (a b : R) : min a b = Rmin a b.
Proof.
  unfold Rmin. destruct (Rle_dec a b); by_cases_on_order.
Qed.

Lemma clamp_range (lo hi x : R) :
  lo <= hi -> lo <= max lo (min hi x) <= hi.
Proof. intros H. by_cases_on_order. Qed.

Lemma clamp_inside (lo hi x : R) :
  lo <= x <= hi -> max lo (min hi x) = x.
Proof. intros H. by_cases_on_order. Qed.

Lemma spec_clamp_inside (lo hi x : R) :
  lo <= x <= hi -> Spec.clamp lo hi x = x.
Proof.
  intros H. unfold Spec.clamp.
  rewrite <- min_is_Rmin, <- max_is_Rmax. now apply clamp_inside.
Qed.

(** ** The operator's speed setting *)

(** C10.  After [set_speed(v)], in the unified controller and in the command
    line controller alike, the stored speed is [max(0.1, min(2.0, v))] for
    every real [v]; it therefore lies in [0.1, 2.0], is never zero and never
    exceeds 2.0.  The unified controller copies it to [target_speed]. *)
Theorem set_speed_clamps (v : R) :
  (forall u : Unified.t,
      Unified.speed (Unified.set_speed u v) = Rmax 0.1 (Rmin 2 v)
      /\ Unified.target_speed (Unified.controller (Unified.set_speed u v))
         = Rmax 0.1 (Rmin 2 v))
  /\ (forall c : CLI.Go2Controller,
         CLI.speed (CLI.set_speed c v) = Rmax 0.1 (Rmin 2 v))
  /\ 0.1 <= Rmax 0.1 (Rmin 2 v) <= 2
  /\ Rmax 0.1 (Rmin 2 v) <> 0.
Proof.
  assert (E : max 0.1 (min 2 v) = Rmax 0.1 (Rmin 2 v))
    by now rewrite max_is_Rmax, min_is_Rmin.
  assert (B : 0.1 <= Rmax 0.1 (Rmin 2 v) <= 2)
    by (rewrite <- E; apply clamp_range; lra).
  repeat split; try tauto; try lra.
  - intros c. unfold CLI.set_speed. cbn [CLI.is_moving].
    destruct (CLI.is_moving c); cbn; exact E.
Qed.

(** ** The speed policies *)

Section SpeedPolicies.

Variable pc : PathController.t.
Hypothesis length_15 : PathController.path_length pc = 15.
Hypothesis modes_as_built :
  PathController.speed_modes pc
  = PathController.speed_modes PathController.init.

Lemma ratio_15 (d : R) : PathController.ratio pc d = Ok (d / 15).
Proof.
  unfold PathController.ratio. rewrite length_15.
  rewrite eqb_false by lra. reflexivity.
Qed.

Lemma get_speed_by_policy (p : Spec.policy) (d : R) :
  PathController.current_speed_mode pc = Spec.index p ->
  PathController.get_speed pc d = Ok (Spec.table 15 p d).
Proof.
  intros Hi. unfold PathController.get_speed.
  rewrite modes_as_built, Hi.
  destruct p; cbn [Spec.index PathController.init PathController.speed_modes
                   nth_error String.eqb Ascii.eqb Bool.eqb Spec.table];
    rewrite ?ratio_15; try reflexivity;
    f_equal; unfold ltb;
    repeat match goal with
           | |- context [Rlt_dec ?a ?b] => destruct (Rlt_dec a b)
           end; try reflexivity; lra.
Qed.

Lemma table_range (p : Spec.policy) (d : R) :
  0 <= d <= 15 -> 0 <= Spec.table 15 p d <= 3.
Proof.
  intros Hd. destruct p; cbn [Spec.table];
    repeat match goal with
           | |- context [Rlt_dec ?a ?b] => destruct (Rlt_dec a b)
           end; lra.
Qed.

End SpeedPolicies.

Lemma index_onto (i : nat) :
  (i < List.length (PathController.speed_modes PathController.init))%nat ->
  exists p, Spec.index p = i.
Proof.
  cbn. intros H.
  destruct i as [|[|[|[|[|[|i]]]]]]; try lia.
  - now exists Spec.ramp_up.
  - now exists Spec.ramp_down.
  - now exists Spec.step_up_at_half.
  - now exists Spec.step_down_at_half.
  - now exists Spec.pause_slow.
  - now exists Spec.pause_fast.
Qed.

(** C5.  With the path length 15.0 and the speed modes as built, for every
    policy and every distance [d] in [0, 15] [get_speed] returns the value
    of the specification's evaluator (the table read at the clamped
    distance, the output clamped to [0, 3.0]), and that value lies in
    [0, 3.0]; every position of [speed_modes] is one of the six policies;
    and [step_up_at_half] evaluates to 1.0, 1.0, 3.0, 3.0 at the distances
    0, 4, 8.1, 15.0. *)
Theorem get_speed_meets_table :
  (forall (pc : PathController.t) (p : Spec.policy) (d : R),
      PathController.path_length pc = 15 ->
      PathController.speed_modes pc
      = PathController.speed_modes PathController.init ->
      PathController.current_speed_mode pc = Spec.index p ->
      0 <= d <= 15 ->
      PathController.get_speed pc d = Ok (Spec.evaluate 15 3 p d)
      /\ 0 <= Spec.evaluate 15 3 p d <= 3)
  /\ (forall i : nat,
         (i < List.length (PathController.speed_modes PathController.init))%nat ->
         exists p, Spec.index p = i)
  /\ (let pc := PathController.set_current_speed_mode PathController.init
                  (Spec.index Spec.step_up_at_half) in
      PathController.get_speed pc 0 = Ok 1
      /\ PathController.get_speed pc 4 = Ok 1
      /\ PathController.get_speed pc 8.1 = Ok 3
      /\ PathController.get_speed pc 15 = Ok 3).
Proof.
  split; [| split].
  - intros pc p d HL Hm Hi Hd.
    assert (E : Spec.evaluate 15 3 p d = Spec.table 15 p d).
    { unfold Spec.evaluate. rewrite (spec_clamp_inside 0 15 d) by exact Hd.
      apply spec_clamp_inside. now apply table_range. }
    rewrite E. split.
    + now apply get_speed_by_policy.
    + now apply table_range.
  - exact index_onto.
  - cbv zeta.
    repeat split;
      (erewrite get_speed_by_policy; [| reflexivity | reflexivity | reflexivity]);
      cbn [Spec.table]; f_equal;
      match goal with
      | |- context [Rlt_dec ?a ?b] => destruct (Rlt_dec a b)
      end; lra.
Qed.

(** The evaluator at one point of the pause policy, inside the stop band. *)
Lemma get_speed_meets_table_witness :
  PathController.get_speed
    (PathController.set_current_speed_mode PathController.init
       (Spec.index Spec.pause_slow)) 8.25
  = Ok (Spec.evaluate 15 3 Spec.pause_slow 8.25)
  /\ 0 <= Spec.evaluate 15 3 Spec.pause_slow 8.25 <= 3.
Proof.
  apply (proj1 get_speed_meets_table); try reflexivity; lra.
Defined.

(** ** The real robot: stop commands and the emergency stop *)

Lemma stop_is_zero_cmd (r : Gait.Robot) :
  Gait.set_base_velocity r zero3 zero3
  = Gait.mkRobot (Gait.start_pos r) (Gait.initial_yaw r) (Gait.current_yaw r)
      (Gait.current_position r) (Gait.is_connected r) (Gait.now r) (Gait.now r)
      (Gait.published r ++ [(Gait.now r, Gait.zero_cmd)]).
Proof.
  unfold Gait.set_base_velocity, Gait.zero_cmd, zero3, nth0, nth1, nth2.
  cbn [fst snd].
  unfold Gait.max_linear_speed, Gait.max_angular_speed.
  rewrite !clamp_inside by lra. reflexivity.
Qed.

Lemma last_published_snoc (r : Gait.Robot) l t c :
  Gait.published r = l ++ [(t, c)] -> Gait.last_published r = Some c.
Proof.
  intros E. unfold Gait.last_published. rewrite E, rev_app_distr. reflexivity.
Qed.

Lemma last_published_stop (r : Gait.Robot) :
  Gait.last_published (Gait.set_base_velocity r zero3 zero3)
  = Some Gait.zero_cmd.
Proof.
  rewrite stop_is_zero_cmd.
  eapply last_published_snoc. cbn [Gait.published]. reflexivity.
Qed.

Lemma burst_from_S (t : R) (n : nat) :
  Spec.burst_from t (S n) = (t, Gait.zero_cmd) :: Spec.burst_from (t + 0.01) n.
Proof.
  unfold Spec.burst_from. cbn [seq map]. f_equal.
  - f_equal. cbn [INR]. lra.
  - rewrite <- seq_shift, map_map. apply map_ext. intros k.
    f_equal. rewrite S_INR. lra.
Qed.

Lemma stop_rounds_spec (n : nat) : forall r : Gait.Robot,
  Gait.published (Gait.stop_rounds n r)
  = Gait.published r ++ Spec.burst_from (Gait.now r) n
  /\ Gait.now (Gait.stop_rounds n r) = Gait.now r + INR n * 0.01.
Proof.
  induction n as [|n IH]; intros r.
  - cbn [Gait.stop_rounds INR]. unfold Spec.burst_from. cbn [seq map].
    rewrite app_nil_r. split; [reflexivity | lra].
  - cbn [Gait.stop_rounds]. rewrite stop_is_zero_cmd.
    destruct (IH (Gait.sleep
                    (Gait.mkRobot (Gait.start_pos r) (Gait.initial_yaw r)
                       (Gait.current_yaw r) (Gait.current_position r)
                       (Gait.is_connected r) (Gait.now r) (Gait.now r)
                       (Gait.published r ++ [(Gait.now r, Gait.zero_cmd)]))
                    0.01)) as [Hp Hn].
    rewrite Hp, Hn. cbn [Gait.sleep Gait.published Gait.now].
    rewrite burst_from_S, <- app_assoc, S_INR. cbn [app].
    split; [reflexivity | lra].
Qed.

Lemma burst_from_all_zero (t : R) (n : nat) :
  Forall (fun tc => snd tc = Gait.zero_cmd
                    /\ t <= fst tc < t + INR n * 0.01)
         (Spec.burst_from t n).
Proof.
  unfold Spec.burst_from. apply Forall_forall. intros [t' c] Hin.
  apply in_map_iff in Hin. destruct Hin as [k [E Hk]].
  apply in_seq in Hk. inversion E; subst. cbn [fst snd].
  split; [reflexivity |].
  assert (0 <= INR k) by apply pos_INR.
  assert (INR k < INR n) by (apply lt_INR; lia).
  lra.
Qed.





(** ** The real robot: one iteration of the loop *)

Lemma handle_keys_nil (ct : R) (s : Gait.Loop) :
  Gait.handle_keys [] ct s = Next s.
Proof. reflexivity. Qed.

Lemma walk_raises (ct t0 : R) (s : Gait.Loop) :
  Gait.walk ct t0 s
  = Raised TypeError
      (Gait.with_distance_traveled s
         (displacement (Gait.initial_pos s) (Gait.get_position (Gait.robot s)))).
Proof. reflexivity. Qed.

Lemma handle_keys_space_only (ct : R) (s : Gait.Loop) :
  Gait.is_walking s = false ->
  Gait.handle_keys [ord_space] ct s
  = Next (Gait.with_pc
            (Gait.with_start (Gait.with_is_walking s true) ct
               (Gait.get_position (Gait.robot s)))
            (PathController.set_was_stopped (Gait.pc s) false)).
Proof.
  intros Hw. unfold Gait.handle_keys, Gait.on_space.
  cbn [Gait.has_key existsb ord_space Nat.eqb orb].
  rewrite Hw. reflexivity.
Qed.

Lemma tick_disconnected (s : Gait.Loop) (inp : Gait.Input) :
  Gait.fb_connected inp = false ->
  Gait.tick s inp = Next (Gait.reconnect (Gait.observe s inp)).
Proof.
  intros H. unfold Gait.tick. cbn [Gait.observe Gait.with_key_events
    Gait.with_robot Gait.robot Gait.is_connected]. rewrite H. reflexivity.
Qed.

Lemma tick_connected (s : Gait.Loop) (inp : Gait.Input) :
  Gait.fb_connected inp = true ->
  Gait.tick s inp
  = (let s1 := Gait.observe s inp in
     let ct := Gait.now (Gait.robot s1) in
     let s2 := Gait.heartbeat ct s1 in
     Gait.handle_keys (Gait.key_events s2) ct (Gait.with_key_events s2 [])
       >>> Gait.walk_or_stand ct >>> Gait.pace).
Proof.
  intros H. unfold Gait.tick. cbn [Gait.observe Gait.with_key_events
    Gait.with_robot Gait.robot Gait.is_connected]. rewrite H. reflexivity.
Qed.

Lemma heartbeat_frame (ct : R) (s : Gait.Loop) :
  Gait.is_walking (Gait.heartbeat ct s) = Gait.is_walking s
  /\ Gait.key_events (Gait.heartbeat ct s) = Gait.key_events s
  /\ Gait.start_time (Gait.heartbeat ct s) = Gait.start_time s
  /\ Gait.initial_pos (Gait.heartbeat ct s) = Gait.initial_pos s
  /\ Gait.get_position (Gait.robot (Gait.heartbeat ct s))
     = Gait.get_position (Gait.robot s)
  /\ Gait.now (Gait.robot (Gait.heartbeat ct s)) = Gait.now (Gait.robot s).
Proof.
  unfold Gait.heartbeat. destruct (gtb _ _); repeat split.
Qed.

(** C9, on the code as it is.  The walking branch of the real-robot loop
    calls [get_speed] with two arguments, [distance_traveled] and
    [current_time], where the method takes one: the call raises [TypeError],
    whatever the state, and so does the first iteration that starts walking
    (SPACE pressed on a connected robot at rest, freshly started). *)
Theorem walking_tick_raises_TypeError :
  (forall (pc : PathController.t) (d ct : R),
      PathController.call_get_speed pc [d; ct] = Raise TypeError)
  /\ (forall (s : Gait.Loop) (ct t0 : R),
         exists s', Gait.walk ct t0 s = Raised TypeError s')
  /\ (let r0 := Gait.mkRobot (0, 0, 0.28) 0 0 (0, 0, 0.28) true 0 0 [] in
      let inp := Gait.mkInput 0 true (0, 0, 0.28) 0 [ord_space] in
      exists s', Gait.tick (Gait.start r0) inp = Raised TypeError s').
Proof.
  split; [| split].
  - reflexivity.
  - intros s ct t0. rewrite walk_raises. eexists. reflexivity.
  - cbv zeta. rewrite tick_connected by reflexivity. cbv zeta.
    match goal with
    | |- context [Gait.heartbeat ?ct ?s] =>
      destruct (heartbeat_frame ct s) as (Hw & Hk & _);
      set (s2 := Gait.heartbeat ct s) in *
    end.
    rewrite Hk. cbn [Gait.observe Gait.with_key_events Gait.key_events
                     Gait.start Gait.pressed app].
    rewrite handle_keys_space_only by (cbn [Gait.with_key_events Gait.is_walking]; exact Hw).
    cbn [and_then]. eexists. reflexivity.
Qed.

(** ** Leaving the program *)

Lemma CLI_last_sent_stop (c : CLI.Go2Controller) :
  CLI.last_sent (CLI.stop_movement c)
  = Some (CLI.mkCommand 0 (CLI.mode c) (CLI.gaze_angle c) false true false).
Proof.
  unfold CLI.last_sent, CLI.stop_movement, CLI.send_command.
  cbn [CLI.sent CLI.set_is_moving CLI.mode CLI.gaze_angle].
  rewrite rev_app_distr. reflexivity.
Qed.

Lemma handler_keeps_robot (r : Gait.Robot) (e : exn) (rounds : nat) :
  exists r', Gait.handler (Some r) e rounds = Some r'.
Proof.
  unfold Gait.handler. destruct e; cbn [is_Exception]; eexists; reflexivity.
Qed.

Lemma shutdown_last_zero (r : Gait.Robot) (e : exn) (rounds : nat) :
  exists r', Gait.shutdown (Some r) e rounds = Some r'
             /\ Gait.last_published r' = Some Gait.zero_cmd.
Proof.
  unfold Gait.shutdown.
  destruct (handler_keeps_robot r e rounds) as [r1 E]. rewrite E.
  cbn [Gait.finally]. eexists. split; [reflexivity |].
  apply last_published_stop.
Qed.

(** C1.  Whatever leaves [main] of the real-robot program (a keyboard
    interrupt, an exception of the loop, any other signal, at whatever state
    the robot is in, the fault handler completing or being interrupted in
    turn), the [finally] clause hands the transport a zero-velocity command
    after everything else, so the last command sent is zero; the only run
    that sends none is the one whose robot was never constructed, which has
    sent no command at all.  Whatever leaves [main] of the command line
    program ([quit], the end of input or another exception), the last
    datagram sent is the stop command, of speed zero. *)
Theorem zero_velocity_is_last_on_exit :
  (forall (r : Gait.Robot) (e : exn) (rounds : nat),
      exists r', Gait.shutdown (Some r) e rounds = Some r'
                 /\ Gait.last_published r' = Some Gait.zero_cmd)
  /\ (forall (ctor : result Gait.Robot) (inps : list Gait.Input) (sig : exn)
             (rounds : nat),
         match Gait.main ctor inps sig rounds with
         | Some r' => Gait.last_published r' = Some Gait.zero_cmd
         | None => exists e, ctor = Raise e
         end)
  /\ (forall c : CLI.Go2Controller,
         exists cmd, CLI.last_sent (CLI.finally c) = Some cmd
                     /\ CLI.c_speed cmd = 0 /\ CLI.c_stop cmd = true)
  /\ (forall rounds : list CLI.round,
         exists cmd, CLI.last_sent (CLI.main rounds) = Some cmd
                     /\ CLI.c_speed cmd = 0 /\ CLI.c_stop cmd = true).
Proof.
  split; [exact shutdown_last_zero | split; [| split]].
  - intros ctor inps sig rounds. unfold Gait.main.
    destruct ctor as [r | e]; [| cbn; now exists e].
    destruct (Gait.run (Gait.start r) inps) as [s | e s];
      match goal with
      | |- context [Gait.shutdown (Some ?x) ?e ?n] =>
        destruct (shutdown_last_zero x e n) as [r' [E L]]; rewrite E; exact L
      end.
  - intros c. unfold CLI.finally. rewrite CLI_last_sent_stop.
    eexists. split; [reflexivity |]. split; reflexivity.
  - intros rounds. unfold CLI.main, CLI.finally. rewrite CLI_last_sent_stop.
    eexists. split; [reflexivity |]. split; reflexivity.
Qed.

(** ** The connection watchdog *)

Lemma reconnect_spec (s : Gait.Loop) :
  Gait.is_walking (Gait.reconnect s) = false
  /\ Gait.published (Gait.robot (Gait.reconnect s))
     = Gait.published (Gait.robot s)
         ++ [(Gait.now (Gait.robot s), Gait.zero_cmd)]
  /\ Gait.now (Gait.robot (Gait.reconnect s))
     = Gait.now (Gait.robot s) + Gait.reconnect_period
  /\ Gait.key_events (Gait.reconnect s) = Gait.key_events s.
Proof.
  unfold Gait.reconnect, Gait.send_stop.
  cbn [Gait.with_robot Gait.with_is_walking Gait.robot Gait.is_walking
       Gait.key_events].
  rewrite stop_is_zero_cmd. cbn [Gait.sleep Gait.published Gait.now].
  repeat split.
Qed.

Lemma idle_tick_spec (s : Gait.Loop) (inp : Gait.Input) :
  Gait.fb_connected inp = true ->
  Gait.is_walking s = false ->
  Gait.key_events s ++ Gait.pressed inp = [] ->
  exists s', Gait.tick s inp = Next s'
             /\ Gait.is_walking s' = false
             /\ Gait.last_published (Gait.robot s') = Some Gait.zero_cmd
             /\ Gait.now (Gait.robot s')
                = Gait.now (Gait.robot s) + Gait.elapsed inp + Gait.tick_period.
Proof.
  intros Hc Hw Hk. rewrite tick_connected by exact Hc. cbv zeta.
  match goal with
  | |- context [Gait.heartbeat ?ct ?s] =>
    destruct (heartbeat_frame ct s) as (Hw' & Hk' & _ & _ & _ & Hn');
    set (s2 := Gait.heartbeat ct s) in *
  end.
  rewrite Hk'. cbn [Gait.observe Gait.with_key_events Gait.key_events].
  rewrite Hk, handle_keys_nil. cbn [and_then].
  unfold Gait.walk_or_stand.
  cbn [Gait.with_key_events Gait.is_walking].
  cbn [Gait.observe Gait.with_key_events Gait.with_robot Gait.is_walking] in Hw'.
  rewrite Hw', Hw. cbn [and_then Gait.pace].
  eexists. split; [reflexivity |].
  unfold Gait.send_stop.
  cbn [Gait.with_robot Gait.robot Gait.is_walking Gait.with_key_events].
  rewrite stop_is_zero_cmd. cbn [Gait.sleep Gait.now].
  split; [rewrite Hw'; exact Hw |]. split.
  - eapply last_published_snoc. cbn [Gait.published]. reflexivity.
  - cbn [Gait.observe Gait.with_key_events Gait.with_robot Gait.robot
         Gait.now] in Hn'. rewrite Hn'. reflexivity.
Qed.

(** C7, the part the code does not do: at a walking state, an iteration that
    finds the robot disconnected sleeps one second before it polls again,
    not the 20 ms of the tick. *)
Lemma reconnect_poll_is_not_at_tick_rate :
  let r0 := Gait.mkRobot (0, 0, 0.28) 0 0 (0, 0, 0.28) true 0 0 [] in
  let s0 := Gait.with_is_walking
              (Gait.with_start (Gait.start r0) 0 (0, 0, 0.28)) true in
  let inp := Gait.mkInput 0 false (0, 0, 0.28) 0 [] in
  Gait.is_walking s0 = true
  /\ Gait.fb_connected inp = false
  /\ Gait.now (Gait.robot (state_of (Gait.tick s0 inp)))
     - (Gait.now (Gait.robot s0) + Gait.elapsed inp)
     <> Gait.tick_period.
Proof.
  cbv zeta. split; [reflexivity | split; [reflexivity |]].
  rewrite tick_disconnected by reflexivity. cbn [state_of].
  destruct (reconnect_spec
              (Gait.observe
                 (Gait.with_is_walking
                    (Gait.with_start
                       (Gait.start
                          (Gait.mkRobot (0, 0, 0.28) 0 0 (0, 0, 0.28) true 0 0 []))
                       0 (0, 0, 0.28)) true)
                 (Gait.mkInput 0 false (0, 0, 0.28) 0 [])))
    as (_ & _ & Hn & _).
  rewrite Hn.
  cbn [Gait.observe Gait.with_key_events Gait.with_robot Gait.robot Gait.now
       Gait.with_is_walking Gait.with_start Gait.start Gait.elapsed].
  unfold Gait.reconnect_period, Gait.tick_period. lra.
Qed.

(** C7, as the code has it.  An iteration that finds the robot disconnected,
    walking or not, sends exactly one command, of zero velocity, leaves the
    loop not walking, and sleeps one second before the next poll; this
    repeats for as long as the robot stays disconnected.  The first
    iteration that finds it connected again, with no key pressed meanwhile,
    is an ordinary idle iteration: a zero-velocity command and the 20 ms
    sleep of the tick. *)
Theorem watchdog_stops_then_resumes (s : Gait.Loop) (inp : Gait.Input) :
  Gait.fb_connected inp = false ->
  exists s',
    Gait.tick s inp = Next s'
    /\ Gait.is_walking s' = false
    /\ Gait.published (Gait.robot s')
       = Gait.published (Gait.robot s)
           ++ [(Gait.now (Gait.robot s) + Gait.elapsed inp, Gait.zero_cmd)]
    /\ Gait.now (Gait.robot s')
       = Gait.now (Gait.robot s) + Gait.elapsed inp + 1
    /\ (forall inp2 : Gait.Input,
           Gait.fb_connected inp2 = true ->
           Gait.key_events s' ++ Gait.pressed inp2 = [] ->
           exists s'',
             Gait.tick s' inp2 = Next s''
             /\ Gait.is_walking s'' = false
             /\ Gait.last_published (Gait.robot s'') = Some Gait.zero_cmd
             /\ Gait.now (Gait.robot s'')
                = Gait.now (Gait.robot s') + Gait.elapsed inp2 + 0.02).
Proof.
  intros Hd. rewrite tick_disconnected by exact Hd.
  destruct (reconnect_spec (Gait.observe s inp)) as (Hw & Hp & Hn & Hk).
  eexists. split; [reflexivity |].
  split; [exact Hw |]. split; [exact Hp |]. split; [exact Hn |].
  intros inp2 Hc Hkeys.
  exact (idle_tick_spec _ inp2 Hc Hw Hkeys).
Qed.

(** A walking robot whose link drops, then comes back. *)
Lemma watchdog_stops_then_resumes_witness :
  exists s',
    Gait.tick
      (Gait.with_is_walking
         (Gait.with_start
            (Gait.start (Gait.mkRobot (0, 0, 0.28) 0 0 (0, 0, 0.28) true 0 0 []))
            0 (0, 0, 0.28)) true)
      (Gait.mkInput 0 false (1, 0, 0.28) 0 []) = Next s'
    /\ Gait.is_walking s' = false.
Proof.
  destruct (watchdog_stops_then_resumes
              (Gait.with_is_walking
                 (Gait.with_start
                    (Gait.start
                       (Gait.mkRobot (0, 0, 0.28) 0 0 (0, 0, 0.28) true 0 0 []))
                    0 (0, 0, 0.28)) true)
              (Gait.mkInput 0 false (1, 0, 0.28) 0 []) eq_refl)
    as (s' & Ht & Hw & _).
  exists s'. split; [exact Ht | exact Hw].
Defined.

(** ** The simulation loop *)

Ltac sim_key_cases :=
  unfold Sim.handle_keys, Sim.on_space, Sim.on_p, Sim.on_s, Sim.on_g,
         Sim.on_r, Sim.reset;
  repeat (cbn [and_then Sim.with_is_walking Sim.with_start Sim.with_pc
               Sim.with_mode Sim.with_commands Sim.is_walking Sim.start_time
               Sim.initial_pos Sim.pc Sim.commands Sim.mode
               Sim.distance_traveled Sim.target_speed negb];
          match goal with
          | |- context [if Sim.triggered ?i ?k then _ else _] =>
            destruct (Sim.triggered i k) eqn:?
          | |- context [match List.length ?l with _ => _ end] =>
            destruct (List.length l) eqn:?
          | |- context [match current_mode ?c with _ => _ end] =>
            destruct (current_mode c) eqn:?
          | |- context [if negb (Sim.is_walking ?s) then _ else _] =>
            destruct (Sim.is_walking s) eqn:?
          end).

(** What the key handlers leave behind when the loop is walking after
    them: either SPACE has just switched walking on and the snapshot is this
    iteration's, or nothing has touched it. *)
Lemma sim_handle_keys_walking (inp : Sim.Input) (s s1 : Sim.Loop) :
  Sim.handle_keys inp s = Next s1 ->
  Sim.is_walking s1 = true ->
  if Sim.triggered inp ord_space then
    Sim.start_time s1 = Some (Sim.current_time inp)
    /\ Sim.initial_pos s1 = Some (Sim.position inp)
  else
    Sim.is_walking s = true
    /\ Sim.start_time s1 = Sim.start_time s
    /\ Sim.initial_pos s1 = Sim.initial_pos s.
Proof.
  sim_key_cases; intros H Hw; try discriminate H;
    inversion H; subst; clear H;
    cbn [Sim.with_is_walking Sim.with_start Sim.with_pc Sim.with_mode
         Sim.with_commands Sim.is_walking Sim.start_time Sim.initial_pos] in *;
    try discriminate Hw; repeat split; assumption.
Qed.

(** The walking branch of the simulation: the distance it stores, and what
    it keeps. *)
Lemma sim_walk_distance (inp : Sim.Input) (t0 : R) (s : Sim.Loop) :
  Sim.distance_traveled (state_of (Sim.walk inp t0 s))
  = Some (displacement (Sim.initial_pos s) (Sim.position inp))
  /\ Sim.start_time (state_of (Sim.walk inp t0 s)) = Sim.start_time s
  /\ Sim.initial_pos (state_of (Sim.walk inp t0 s)) = Sim.initial_pos s
  /\ (Sim.is_walking (state_of (Sim.walk inp t0 s)) = true ->
      Sim.is_walking s = true).
Proof.
  unfold Sim.walk.
  destruct (PathController.call_get_speed _ _) as [v | e]; cbn [state_of].
  - cbn [Sim.with_pc Sim.set_base_velocity Sim.with_commands
         Sim.with_target_speed Sim.with_distance_traveled Sim.pc
         Sim.commands Sim.mode Sim.is_walking Sim.start_time Sim.initial_pos
         Sim.distance_traveled Sim.target_speed].
    destruct (geb _ _); cbn; repeat split; auto; discriminate.
  - cbn. repeat split; auto.
Qed.

(** At the end of the path the simulation sends the walking command of this
    iteration and switches walking off, with no stop command in between. *)
Lemma sim_walk_at_path_end (inp : Sim.Input) (t0 v : R) (s : Sim.Loop) :
  let d := displacement (Sim.initial_pos s) (Sim.position inp) in
  PathController.get_speed (Sim.pc s) d = Ok v ->
  PathController.path_length (Sim.pc s) <= d ->
  exists s' w,
    Sim.walk inp t0 s = Next s'
    /\ Sim.is_walking s' = false
    /\ Sim.commands s' = Sim.commands s ++ [((0, v, 0), (0, 0, w))].
Proof.
  intros d Hv Hd. unfold Sim.walk. fold d.
  cbn [PathController.call_get_speed Sim.with_distance_traveled Sim.pc].
  rewrite Hv.
  cbn [Sim.with_pc Sim.set_base_velocity Sim.with_commands
       Sim.with_target_speed Sim.with_distance_traveled Sim.pc Sim.commands].
  assert (L : PathController.path_length (note_stop (Sim.pc s) v)
              = PathController.path_length (Sim.pc s)).
  { unfold note_stop. destruct (_ && _); [reflexivity |].
    destruct (_ && _); reflexivity. }
  rewrite L, geb_true by exact Hd.
  eexists. eexists. split; [reflexivity |]. split; reflexivity.
Qed.

Lemma sqrt_planar_15 : sqrt ((0 - 0) ^ 2 + (15 - 0) ^ 2) = 15.
Proof.
  replace ((0 - 0) ^ 2 + (15 - 0) ^ 2) with (15 * 15) by (simpl; lra).
  apply sqrt_square. lra.
Qed.

(** C6, on the code as it is.  In the simulation loop, an iteration that
    finds the distance at the path length sends the walking command of that
    iteration and then clears [is_walking], with no zero-velocity command:
    walking from (0, 0, 0.4) in the first speed mode, at (0, 15, 0.4) the
    loop leaves Walking while the last command it has sent carries the
    linear velocity (0, 3, 0). *)
Theorem sim_path_complete_leaves_speed_command :
  let s := Sim.with_is_walking (Sim.with_start Sim.init 0 (0, 0, 0.4)) true in
  let inp := Sim.mkInput 1 (0, 15, 0.4) (fun _ => false) in
  exists s' w,
    Sim.tick s inp = Next s'
    /\ Sim.distance_traveled s' = Some 15
    /\ Sim.is_walking s' = false
    /\ Sim.commands s' = [((0, 3, 0), (0, 0, w))]
    /\ (0, 3, 0) <> zero3.
Proof.
  cbv zeta.
  set (s := Sim.with_is_walking (Sim.with_start Sim.init 0 (0, 0, 0.4)) true).
  set (inp := Sim.mkInput 1 (0, 15, 0.4) (fun _ => false)).
  assert (Hd : displacement (Sim.initial_pos s) (Sim.position inp) = 15)
    by exact sqrt_planar_15.
  assert (Hv : PathController.get_speed (Sim.pc s)
                 (displacement (Sim.initial_pos s) (Sim.position inp)) = Ok 3).
  { rewrite Hd. change (Sim.pc s) with PathController.init.
    rewrite (get_speed_by_policy PathController.init eq_refl eq_refl
               Spec.ramp_up 15 eq_refl).
    cbn [Spec.table]. f_equal. lra. }
  destruct (sim_walk_at_path_end inp 0 3 s Hv) as (s' & w & Ht & Hw & Hc).
  { rewrite Hd. cbn. lra. }
  exists s', w.
  split; [exact Ht |]. split; [| split; [exact Hw | split; [exact Hc |]]].
  - destruct (sim_walk_distance inp 0 s) as (Hdist & _).
    change (Sim.walk inp 0 s = Next s') in Ht.
    rewrite Ht in Hdist. cbn [state_of] in Hdist. rewrite Hdist, Hd.
    reflexivity.
  - unfold zero3. intros E. inversion E. lra.
Qed.

(** The sibling branch of the real-robot loop: had its [get_speed] call
    returned a speed, reaching the path length would send a stop command
    before [is_walking] is cleared. *)
Lemma gait_walk_on_at_path_end (ct et d v : R) (s : Gait.Loop) :
  PathController.path_length (Gait.pc s) <= d ->
  exists s',
    Gait.walk_on ct et d v s = Next s'
    /\ Gait.is_walking s' = false
    /\ Gait.last_published (Gait.robot s') = Some Gait.zero_cmd.
Proof.
  intros Hd. unfold Gait.walk_on.
  cbn [Gait.with_target_speed Gait.pc Gait.with_pc Gait.last_status_time
       Gait.mode Gait.robot].
  match goal with
  | |- context [geb d (PathController.path_length (Gait.pc ?x))] =>
    assert (L : PathController.path_length (Gait.pc x)
                = PathController.path_length (Gait.pc s))
  end.
  { destruct (_ && _); cbn [Gait.with_robot Gait.with_last_status_time Gait.pc];
      unfold note_stop; destruct (_ && _); try reflexivity;
      destruct (_ && _); reflexivity. }
  rewrite L, geb_true by exact Hd.
  eexists. split; [reflexivity |].
  split; [reflexivity |].
  cbn [Gait.with_is_walking Gait.robot Gait.send_stop Gait.with_robot].
  apply last_published_stop.
Qed.

(** ** Heading error *)

Lemma while_above_spec (fuel : nat) : forall d : R,
  d <= 180 + 360 * INR fuel ->
  Unified.while_above fuel d <= 180
  /\ (d <= 180 -> Unified.while_above fuel d = d)
  /\ (180 < d -> -180 < Unified.while_above fuel d)
  /\ exists k : Z, Unified.while_above fuel d = d + 360 * IZR k.
Proof.
  induction fuel as [|fuel IH]; intros d Hd.
  - cbn [INR] in Hd. cbn [Unified.while_above].
    repeat split; try lra. exists 0%Z. lra.
  - rewrite S_INR in Hd. cbn [Unified.while_above]. unfold gtb, ltb.
    destruct (Rlt_dec 180 d) as [Hgt | Hle].
    + destruct (IH (d - 360)) as (H1 & H2 & H3 & k & H4); [lra |].
      repeat split; try lra.
      exists (k - 1)%Z. rewrite H4, minus_IZR. lra.
    + repeat split; try lra. exists 0%Z. lra.
Qed.

Lemma while_below_spec (fuel : nat) : forall d : R,
  - 180 - 360 * INR fuel <= d ->
  -180 <= Unified.while_below fuel d
  /\ (-180 <= d -> Unified.while_below fuel d = d)
  /\ (d < -180 -> Unified.while_below fuel d < 180)
  /\ exists k : Z, Unified.while_below fuel d = d + 360 * IZR k.
Proof.
  induction fuel as [|fuel IH]; intros d Hd.
  - cbn [INR] in Hd. cbn [Unified.while_below].
    repeat split; try lra. exists 0%Z. lra.
  - rewrite S_INR in Hd. cbn [Unified.while_below]. unfold ltb.
    destruct (Rlt_dec d (-180)) as [Hlt | Hge].
    + destruct (IH (d + 360)) as (H1 & H2 & H3 & k & H4); [lra |].
      repeat split; try lra.
      exists (k + 1)%Z. rewrite H4, plus_IZR. lra.
    + repeat split; try lra. exists 0%Z. lra.
Qed.

(** The bound on the number of iterations covers the angle. *)
Lemma turns_cover (d : R) : Rabs d < 360 * INR (Unified.turns d).
Proof.
  unfold Unified.turns. rewrite S_INR.
  destruct (archimed (Rabs d / 360)) as [Hup _].
  assert (Hpos : 0 <= Rabs d / 360).
  { apply Rmult_le_pos; [apply Rabs_pos | lra]. }
  assert (Hz : (0 <= up (Rabs d / 360))%Z).
  { apply le_IZR. lra. }
  rewrite INR_IZR_INZ, Z2Nat.id by exact Hz.
  lra.
Qed.

(** The two loops of [calculate_orientation] leave within the iterations
    allotted to them, with a difference in [-180, 180] that is the raw one
    up to whole turns. *)
Lemma normalize_spec (d : R) :
  -180 <= Unified.normalize d <= 180
  /\ exists k : Z, Unified.normalize d = d + 360 * IZR k.
Proof.
  unfold Unified.normalize.
  set (d1 := Unified.while_above (Unified.turns d) d).
  assert (C := turns_cover d). assert (C1 := turns_cover d1).
  destruct (while_above_spec (Unified.turns d) d) as (A1 & A2 & A3 & k1 & A4).
  { pose proof (Rle_abs d). lra. }
  fold d1 in A1, A2, A3, A4.
  destruct (while_below_spec (Unified.turns d1) d1) as (B1 & B2 & B3 & k2 & B4).
  { pose proof (Rle_abs (- d1)). rewrite Rabs_Ropp in H. lra. }
  split.
  - split; [exact B1 |].
    destruct (Rle_dec (-180) d1) as [Hs | Hs].
    + rewrite B2 by exact Hs. exact A1.
    + apply Rlt_le, B3. lra.
  - exists (k1 + k2)%Z. rewrite B4, A4, plus_IZR. lra.
Qed.

(** Either loop, once it has enough iterations to leave, does the same
    whatever the bound on its iterations. *)
Lemma while_above_fuel (n : nat) : forall (m : nat) (d : R),
  d <= 180 + 360 * INR n -> d <= 180 + 360 * INR m ->
  Unified.while_above n d = Unified.while_above m d.
Proof.
  induction n as [|n IH]; intros [|m] d Hn Hm;
    rewrite ?S_INR in *; cbn [INR] in *; cbn [Unified.while_above];
    unfold gtb, ltb; try reflexivity;
    destruct (Rlt_dec 180 d); try reflexivity; try lra.
  apply IH; lra.
Qed.

Lemma while_below_fuel (n : nat) : forall (m : nat) (d : R),
  - 180 - 360 * INR n <= d -> - 180 - 360 * INR m <= d ->
  Unified.while_below n d = Unified.while_below m d.
Proof.
  induction n as [|n IH]; intros [|m] d Hn Hm;
    rewrite ?S_INR in *; cbn [INR] in *; cbn [Unified.while_below];
    unfold ltb; try reflexivity;
    destruct (Rlt_dec d (-180)); try reflexivity; try lra.
  apply IH; lra.
Qed.

(** For a difference within [n] turns of the range, [n] iterations of each
    loop are what the normalisation does. *)
Lemma normalize_with_fuel (n : nat) (d : R) :
  Rabs d <= 180 + 360 * INR n ->
  Unified.normalize d = Unified.while_below n (Unified.while_above n d).
Proof.
  intros H. unfold Unified.normalize.
  pose proof (Rle_abs d) as U. pose proof (Rle_abs (- d)) as L.
  rewrite Rabs_Ropp in L.
  pose proof (turns_cover d) as C.
  rewrite (while_above_fuel (Unified.turns d) n d) by lra.
  set (d1 := Unified.while_above n d).
  destruct (while_above_spec n d) as (A1 & A2 & A3 & _); [lra |].
  fold d1 in A1, A2, A3.
  pose proof (turns_cover d1) as C1.
  pose proof (Rle_abs (- d1)) as L1. rewrite Rabs_Ropp in L1.
  pose proof (pos_INR n) as P.
  apply while_below_fuel; [lra |].
  destruct (Rle_dec d 180) as [Hs | Hs].
  - rewrite A2 by exact Hs. lra.
  - assert (-180 < d1) by (apply A3; lra). lra.
Qed.

(** Within a turn and a half of zero each loop runs at most once. *)
Lemma normalize_one_round (d : R) :
  Rabs d <= 540 ->
  Unified.normalize d
  = if gtb d 180 then d - 360 else if ltb d (-180) then d + 360 else d.
Proof.
  intros H. rewrite (normalize_with_fuel 1) by (cbn [INR]; lra).
  pose proof (Rle_abs d) as U. pose proof (Rle_abs (- d)) as L.
  rewrite Rabs_Ropp in L.
  cbn [Unified.while_above Unified.while_below]. by_cases_on_order.
Qed.

(** In forward mode the raw error is the negated yaw, within a half turn
    whenever the yaw is. *)
Lemma forward_error_within_half_turn (yaw : R) :
  - PI <= yaw <= PI -> Rabs (Gait.yaw_error forward yaw) <= PI.
Proof.
  intros H. cbn [Gait.yaw_error]. rewrite Rabs_Ropp.
  apply Rabs_le. lra.
Qed.

(** The expression for the heading error in the real-robot loop is a plain
    subtraction as well: in leftward mode (target PI/2) at the yaw -3.0 its
    value is PI/2 + 3, above PI, and the correction computed from it is
    +0.5, whereas the error wrapped to (-PI, PI] is PI/2 + 3 - 2 PI, which
    is negative.  (As the program stands the loop raises before it gets to
    this expression.) *)
Lemma leftward_heading_error_not_wrapped :
  - PI < -3 <= PI
  /\ Gait.yaw_error leftward (-3) = PI / 2 + 3
  /\ PI < Gait.yaw_error leftward (-3)
  /\ Gait.yaw_correction leftward (-3) = 0.5
  /\ Spec.wrapped (PI / 2) (-3) (PI / 2 + 3 - 2 * PI)
  /\ PI / 2 + 3 - 2 * PI < 0.
Proof.
  pose proof PI_4 as Hhi. pose proof PI2_3_2 as Hlo.
  assert (E : Gait.yaw_error leftward (-3) = PI / 2 + 3)
    by (cbn [Gait.yaw_error]; lra).
  split; [lra |]. split; [exact E |]. split; [rewrite E; lra |].
  split; [| split; [| lra]].
  - unfold Gait.yaw_correction. rewrite E. by_cases_on_order.
  - unfold Spec.wrapped. split; [lra |]. exists (-1)%Z. lra.
Qed.

(** ** Distance travelled *)











Lemma gait_walk_or_stand_cases (ct : R) (s : Gait.Loop) :
  (Gait.is_walking s = true
   /\ exists t0, Gait.start_time s = Some t0
                 /\ Gait.walk_or_stand ct s
                    = Raised TypeError
                        (Gait.with_distance_traveled s
                           (displacement (Gait.initial_pos s)
                              (Gait.get_position (Gait.robot s)))))
  \/ (Gait.walk_or_stand ct s = Next (Gait.send_stop s)
      /\ (Gait.is_walking s = true -> Gait.start_time s = None)).
Proof.
  unfold Gait.walk_or_stand.
  destruct (Gait.is_walking s); [destruct (Gait.start_time s) as [t0|] |].
  - left. split; [reflexivity |]. exists t0. split; [reflexivity |].
    apply walk_raises.
  - right. split; [reflexivity | reflexivity].
  - right. split; [reflexivity | discriminate].
Qed.




(** The unified controller keeps distance by summing steps: with the
    straight planner each update adds the length of the step it has just
    computed from the velocity, [|velocity * dt|]. *)
Lemma update_adds_velocity_step (c : Unified.Controller) (l g t dt : R) :
  Unified.path_planner c = Unified.StraightPathPlanner l g ->
  Unified.is_moving (Unified.current_state c) = true ->
  Unified.distance_traveled
    (Unified.current_state (state_of (Unified.update c t dt)))
  = Unified.distance_traveled (Unified.current_state c)
    + Rabs (Unified.velocity (Unified.current_state c) * dt).
Proof.
  intros Hp Hm. unfold Unified.update. rewrite Hm, Hp.
  cbn [Unified.calculate_next_position Unified.calculate_orientation
       Unified.path_length_of].
  unfold Unified.straight_next_position. rewrite Hm. cbn [negb].
  set (v := Unified.velocity (Unified.current_state c)).
  assert (E : forall a b : R, a * a + b * b = 0 + Rsqr (a + b) -> a * b = 0 ->
              sqrt (a * a + b * b) = Rabs (a + b)).
  { intros a b H _. rewrite H, Rplus_0_l. apply sqrt_Rsqr_abs. }
  destruct (String.eqb _ _);
    match goal with
    | |- context [if geb ?x ?y then _ else _] => destruct (geb x y)
    end;
    cbn [state_of Unified.with_state Unified.current_state
         Unified.distance_traveled nth0 nth1 nth2 fst snd];
    f_equal;
    match goal with
    | |- sqrt ?x = Rabs ?y =>
      replace x with (Rsqr y) by (unfold Rsqr; ring); apply sqrt_Rsqr_abs
    end.
Qed.




(** ** Stopping at rest *)

Lemma set_is_moving_at_rest (st : Unified.RobotState) :
  Unified.is_moving st = false -> Unified.set_is_moving st false = st.
Proof.
  destruct st as [p o v m d md]. cbn. intros ->. reflexivity.
Qed.

Lemma send_keeps_state (c : Unified.Controller) (v : vec3) (w : R) :
  Unified.current_state (Unified.send_movement_command c v w)
  = Unified.current_state c
  /\ Unified.target_speed (Unified.send_movement_command c v w)
     = Unified.target_speed c
  /\ Unified.target_gaze (Unified.send_movement_command c v w)
     = Unified.target_gaze c
  /\ Unified.path_planner (Unified.send_movement_command c v w)
     = Unified.path_planner c.
Proof.
  unfold Unified.send_movement_command.
  destruct (Unified.transport c) as [b sent | b [cmd |]];
    try destruct b; cbn; repeat split.
Qed.

(** C8, the part the code does not do: the unified controller publishes
    nothing when it is stopped while its transport is not connected, as it
    is before [connect()]. *)
Lemma stop_publishes_nothing_when_disconnected :
  let u := Unified.create (Unified.Unity false []) in
  Unified.is_moving (Unified.current_state (Unified.controller u)) = false
  /\ Unified.is_running u = false
  /\ Unified.transport (Unified.controller (Unified.stop u))
     = Unified.Unity false [].
Proof.
  cbv zeta. repeat split.
Qed.

(** C8, as the code has it.  Stopping a controller that is at rest leaves
    its state as it was.  The command line controller still sends the stop
    command, of speed zero.  The unified controller still publishes a
    zero-velocity command when its transport is connected (a datagram with
    zero velocity and yaw rate to Unity, a zeroed command buffer for the
    real robot) and publishes nothing when it is not. *)
Theorem stop_at_rest_republishes :
  (forall c : CLI.Go2Controller,
      CLI.is_moving c = false ->
      CLI.stop_movement c
      = CLI.mk (CLI.speed c) (CLI.mode c) (CLI.gaze_angle c) (CLI.is_moving c)
          (CLI.sent c
             ++ [CLI.mkCommand 0 (CLI.mode c) (CLI.gaze_angle c)
                   false true false]))
  /\ (forall u : Unified.t,
         Unified.is_moving (Unified.current_state (Unified.controller u))
         = false ->
         Unified.is_running u = false ->
         let u' := Unified.stop u in
         let c := Unified.controller u in
         let c' := Unified.controller u' in
         Unified.current_state c' = Unified.current_state c
         /\ Unified.target_speed c' = Unified.target_speed c
         /\ Unified.target_gaze c' = Unified.target_gaze c
         /\ Unified.path_planner c' = Unified.path_planner c
         /\ Unified.is_running u' = Unified.is_running u
         /\ Unified.speed u' = Unified.speed u
         /\ Unified.gaze_angle u' = Unified.gaze_angle u
         /\ Unified.movement_mode u' = Unified.movement_mode u
         /\ Unified.update_thread u' = Unified.update_thread u
         /\ match Unified.transport c with
            | Unified.Unity true sent =>
              exists cmd,
                Unified.transport c' = Unified.Unity true (sent ++ [cmd])
                /\ Unified.u_velocity cmd = (0, 0, 0)
                /\ Unified.u_yawRate cmd = 0
                /\ Unified.u_isMoving cmd = false
            | Unified.Real true (Some _) =>
              Unified.transport c'
              = Unified.Real true (Some (Unified.mkHighCmd (0, 0) 0))
            | idle_link => Unified.transport c' = idle_link
            end).
Proof.
  split.
  - intros c Hm. unfold CLI.stop_movement, CLI.send_command, CLI.set_is_moving.
    cbn [CLI.speed CLI.mode CLI.gaze_angle CLI.is_moving CLI.sent].
    rewrite Hm. reflexivity.
  - intros u Hm Hr. cbv zeta. unfold Unified.stop.
    cbn [Unified.controller Unified.is_running Unified.speed
         Unified.gaze_angle Unified.movement_mode Unified.update_thread].
    rewrite (set_is_moving_at_rest _ Hm).
    replace (Unified.with_state (Unified.controller u)
               (Unified.current_state (Unified.controller u)))
      with (Unified.controller u)
      by (destruct (Unified.controller u); reflexivity).
    destruct (send_keeps_state (Unified.controller u) (0, 0, 0) 0)
      as (A & B & C & D).
    rewrite A, B, C, D, Hr.
    repeat (split; [reflexivity |]).
    unfold Unified.send_movement_command.
    destruct (Unified.transport (Unified.controller u))
      as [[|] sent | [|] [cmd |]] eqn:E; cbn [negb]; try (cbn; now rewrite E).
    + cbn [Unified.with_transport Unified.transport].
      eexists. split; [reflexivity |]. cbn. rewrite Hm. repeat split.
    + cbn [Unified.with_transport Unified.transport nth0 nth2 fst snd].
      destruct (String.eqb _ _); [rewrite Ropp_0 |]; reflexivity.
Qed.

(** The command line controller as built, stopped before it ever moved. *)
Lemma stop_at_rest_republishes_witness :
  CLI.stop_movement CLI.create
  = CLI.mk 0.5 CLI.FORWARD 0 false
      [CLI.mkCommand 0 CLI.FORWARD 0 false true false].
Proof.
  exact (proj1 stop_at_rest_republishes CLI.create eq_refl).
Defined.

(** * Further properties of the code *)

(** ** The real robot: what reaches the transport *)

Lemma clamp_is_Rmax_Rmin (lo hi x : R) :
  max lo (min hi x) = Rmax lo (Rmin hi x).
Proof. now rewrite max_is_Rmax, min_is_Rmin. Qed.

Lemma clamp_abs (m x : R) : 0 <= m -> Rabs (max (- m) (min m x)) <= m.
Proof.
  intros Hm. apply Rabs_le. apply clamp_range. lra.
Qed.

(** X1.  Whatever velocities [set_base_velocity] is given, the command it
    hands to the transport is clamped component by component: the two
    linear components to [-3.5, 3.5], the yaw rate to [-2.0, 2.0], with
    [yaw_speed] a copy of the yaw component; exactly one command is added,
    stamped with the time of the call, and [last_cmd_time] is that time. *)
Theorem set_base_velocity_clamps (r : Gait.Robot) (linear angular : vec3) :
  exists c : Gait.SportModeCmd,
    Gait.published (Gait.set_base_velocity r linear angular)
    = Gait.published r ++ [(Gait.now r, c)]
    /\ Obs.within_limits c
    /\ nth0 (Gait.velocity c) = Rmax (-3.5) (Rmin 3.5 (nth0 linear))
    /\ nth1 (Gait.velocity c) = Rmax (-3.5) (Rmin 3.5 (nth1 linear))
    /\ nth2 (Gait.velocity c) = Rmax (-2) (Rmin 2 (nth2 angular))
    /\ Gait.last_cmd_time (Gait.set_base_velocity r linear angular)
       = Gait.now r.
Proof.
  unfold Gait.set_base_velocity. eexists. split; [reflexivity |].
  unfold Obs.within_limits, Gait.max_linear_speed, Gait.max_angular_speed.
  cbn [Gait.velocity Gait.yaw_speed Gait.last_cmd_time nth0 nth1 nth2 fst snd].
  repeat split;
    first [ apply clamp_abs; lra
          | rewrite clamp_is_Rmax_Rmin; f_equal; lra
          | reflexivity ].
Qed.

Lemma only_stops_refl (r : Gait.Robot) : Obs.only_stops r r.
Proof. exists []. split; [now rewrite app_nil_r | constructor]. Qed.

Lemma only_stops_trans (r1 r2 r3 : Gait.Robot) :
  Obs.only_stops r1 r2 -> Obs.only_stops r2 r3 -> Obs.only_stops r1 r3.
Proof.
  intros (z1 & E1 & F1) (z2 & E2 & F2). exists (z1 ++ z2). split.
  - now rewrite E2, E1, app_assoc.
  - apply Forall_app. now split.
Qed.

Lemma only_stops_same_published (r r' : Gait.Robot) :
  Gait.published r' = Gait.published r -> Obs.only_stops r r'.
Proof.
  intros E. exists []. split; [now rewrite app_nil_r | constructor].
Qed.

Lemma only_stops_stop (r : Gait.Robot) :
  Obs.only_stops r (Gait.set_base_velocity r zero3 zero3).
Proof.
  rewrite stop_is_zero_cmd. exists [(Gait.now r, Gait.zero_cmd)].
  split; [reflexivity |]. repeat constructor.
Qed.

Lemma only_stops_reset (r : Gait.Robot) : Obs.only_stops r (Gait.reset r).
Proof.
  eapply only_stops_trans; [apply only_stops_stop |].
  apply only_stops_same_published. reflexivity.
Qed.

Lemma only_stops_stop_rounds (n : nat) (r : Gait.Robot) :
  Obs.only_stops r (Gait.stop_rounds n r).
Proof.
  destruct (stop_rounds_spec n r) as [Hp _].
  exists (Spec.burst_from (Gait.now r) n). split; [exact Hp |].
  eapply Forall_impl; [| apply burst_from_all_zero].
  intros tc [H _]. exact H.
Qed.

(** Threading a property of the loop state through [>>>]. *)
Lemma and_then_from {S : Type} (P : S -> S -> Prop)
    (Ptrans : forall a b c, P a b -> P b c -> P a c)
    (o : outcome S) (k : S -> outcome S) (s : S) :
  P s (state_of o) -> (forall s1, P s1 (state_of (k s1))) ->
  P s (state_of (o >>> k)).
Proof.
  intros Ho Hk. destruct o as [s1 | e s1]; cbn [and_then state_of] in *.
  - eapply Ptrans; [exact Ho | apply Hk].
  - exact Ho.
Qed.

Lemma loop_only_stops_trans (a b c : Gait.Loop) :
  Obs.loop_only_stops a b -> Obs.loop_only_stops b c ->
  Obs.loop_only_stops a c.
Proof. apply only_stops_trans. Qed.

Ltac gait_stop_cases :=
  unfold Obs.loop_only_stops, Gait.on_space, Gait.on_p, Gait.on_s, Gait.on_g,
         Gait.on_r, Gait.send_stop, Gait.pace, Gait.heartbeat;
  repeat (cbn [state_of Gait.with_is_walking Gait.with_start Gait.with_pc
               Gait.with_mode Gait.with_robot Gait.with_key_events
               Gait.with_distance_traveled Gait.is_walking Gait.robot negb];
          match goal with
          | |- context [if Gait.has_key ?l ?k then _ else _] =>
            destruct (Gait.has_key l k)
          | |- context [match List.length ?l with _ => _ end] =>
            destruct (List.length l)
          | |- context [match current_mode ?c with _ => _ end] =>
            destruct (current_mode c)
          | |- context [if negb (Gait.is_walking ?s) then _ else _] =>
            destruct (Gait.is_walking s)
          | |- context [if gtb ?a ?b then _ else _] => destruct (gtb a b)
          end);
  first [ apply only_stops_refl
        | apply only_stops_stop
        | apply only_stops_reset
        | apply only_stops_same_published; reflexivity ].

Lemma on_space_only_stops keys ct s :
  Obs.loop_only_stops s (state_of (Gait.on_space keys ct s)).
Proof. gait_stop_cases. Qed.

Lemma on_p_only_stops keys s :
  Obs.loop_only_stops s (state_of (Gait.on_p keys s)).
Proof. gait_stop_cases. Qed.

Lemma on_s_only_stops keys s :
  Obs.loop_only_stops s (state_of (Gait.on_s keys s)).
Proof. gait_stop_cases. Qed.

Lemma on_g_only_stops keys s :
  Obs.loop_only_stops s (state_of (Gait.on_g keys s)).
Proof. gait_stop_cases. Qed.

Lemma on_r_only_stops keys s :
  Obs.loop_only_stops s (state_of (Gait.on_r keys s)).
Proof. gait_stop_cases. Qed.

Lemma pace_only_stops s : Obs.loop_only_stops s (state_of (Gait.pace s)).
Proof. gait_stop_cases. Qed.

Lemma heartbeat_only_stops ct s :
  Obs.loop_only_stops s (Gait.heartbeat ct s).
Proof. gait_stop_cases. Qed.

Lemma walk_or_stand_only_stops ct s :
  Obs.loop_only_stops s (state_of (Gait.walk_or_stand ct s)).
Proof.
  destruct (gait_walk_or_stand_cases ct s) as [(_ & t0 & _ & E) | (E & _)];
    rewrite E; gait_stop_cases.
Qed.

Lemma handle_keys_only_stops keys ct s :
  Obs.loop_only_stops s (state_of (Gait.handle_keys keys ct s)).
Proof.
  unfold Gait.handle_keys.
  repeat (apply (and_then_from Obs.loop_only_stops loop_only_stops_trans);
          [| intros ?; first [ apply on_p_only_stops | apply on_s_only_stops
                             | apply on_g_only_stops | apply on_r_only_stops ]]).
  apply on_space_only_stops.
Qed.

Lemma tick_only_stops (s : Gait.Loop) (inp : Gait.Input) :
  Obs.loop_only_stops s (state_of (Gait.tick s inp)).
Proof.
  destruct (Gait.fb_connected inp) eqn:Hc.
  - rewrite tick_connected by exact Hc. cbv zeta.
    apply (and_then_from Obs.loop_only_stops loop_only_stops_trans);
      [| apply pace_only_stops].
    apply (and_then_from Obs.loop_only_stops loop_only_stops_trans);
      [| apply walk_or_stand_only_stops].
    eapply loop_only_stops_trans; [| apply handle_keys_only_stops].
    eapply loop_only_stops_trans;
      [| apply only_stops_same_published; reflexivity].
    eapply loop_only_stops_trans; [| apply heartbeat_only_stops].
    apply only_stops_same_published. reflexivity.
  - rewrite tick_disconnected by exact Hc. cbn [state_of].
    destruct (reconnect_spec (Gait.observe s inp)) as (_ & Hp & _).
    unfold Obs.loop_only_stops. eexists. split; [exact Hp |].
    repeat constructor.
Qed.

Lemma run_only_stops (inps : list Gait.Input) : forall s : Gait.Loop,
  Obs.loop_only_stops s (state_of (Gait.run s inps)).
Proof.
  induction inps as [|inp inps IH]; intros s; cbn [Gait.run].
  - apply only_stops_refl.
  - pose proof (tick_only_stops s inp) as Ht.
    destruct (Gait.tick s inp) as [s1 | e s1]; cbn [state_of] in *.
    + eapply loop_only_stops_trans; [exact Ht | apply IH].
    + exact Ht.
Qed.

Lemma shutdown_only_stops (r : Gait.Robot) (e : exn) (rounds : nat) :
  exists r', Gait.shutdown (Some r) e rounds = Some r' /\ Obs.only_stops r r'.
Proof.
  unfold Gait.shutdown, Gait.handler.
  destruct e; cbn [is_Exception Gait.finally]; eexists;
    (split; [reflexivity |]);
    try (eapply only_stops_trans;
         [apply only_stops_stop_rounds | apply only_stops_stop]);
    apply only_stops_stop.
Qed.

(** X2.  As the program stands, nothing but stop commands ever reaches the
    real robot: every command published by an iteration of the loop, from
    any state, is the zero-velocity command, and so is every command of a
    whole run of [main], handlers and [finally] clause included.  (The one
    place that sends a speed comes after the [get_speed] call, which
    raises.) *)
Theorem real_robot_is_sent_only_stops :
  (forall (s : Gait.Loop) (inp : Gait.Input),
      Obs.only_stops (Gait.robot s) (Gait.robot (state_of (Gait.tick s inp))))
  /\ (forall (r : Gait.Robot) (inps : list Gait.Input) (sig : exn)
             (rounds : nat),
         exists r', Gait.main (Ok r) inps sig rounds = Some r'
                    /\ Obs.only_stops r r').
Proof.
  split; [exact tick_only_stops |].
  intros r inps sig rounds. unfold Gait.main.
  pose proof (run_only_stops inps (Gait.start r)) as Hr.
  unfold Obs.loop_only_stops in Hr. cbn [Gait.start Gait.robot] in Hr.
  destruct (Gait.run (Gait.start r) inps) as [s | e s]; cbn [state_of] in Hr;
    match goal with
    | |- context [Gait.shutdown (Some ?x) ?e ?n] =>
      destruct (shutdown_only_stops x e n) as (r' & E & H)
    end;
    exists r'; (split; [exact E |]);
    eapply only_stops_trans; eassumption.
Qed.

(** ** The real robot: keys, reset and heading *)

Lemma same_key_events_trans (a b c : Gait.Loop) :
  Obs.same_key_events a b -> Obs.same_key_events b c ->
  Obs.same_key_events a c.
Proof. unfold Obs.same_key_events. congruence. Qed.

Ltac gait_frame_cases :=
  unfold Obs.same_key_events, Gait.on_space, Gait.on_p, Gait.on_s, Gait.on_g,
         Gait.on_r, Gait.send_stop, Gait.pace, Gait.heartbeat;
  repeat (cbn [state_of Gait.with_is_walking Gait.with_start Gait.with_pc
               Gait.with_mode Gait.with_robot Gait.with_key_events
               Gait.with_distance_traveled Gait.is_walking Gait.robot
               Gait.key_events negb];
          match goal with
          | |- context [if Gait.has_key ?l ?k then _ else _] =>
            destruct (Gait.has_key l k)
          | |- context [match List.length ?l with _ => _ end] =>
            destruct (List.length l)
          | |- context [match current_mode ?c with _ => _ end] =>
            destruct (current_mode c)
          | |- context [if negb (Gait.is_walking ?s) then _ else _] =>
            destruct (Gait.is_walking s)
          | |- context [if gtb ?a ?b then _ else _] => destruct (gtb a b)
          end);
  reflexivity.

Lemma handle_keys_same_key_events keys ct s :
  Obs.same_key_events s (state_of (Gait.handle_keys keys ct s)).
Proof.
  unfold Gait.handle_keys.
  repeat (apply (and_then_from Obs.same_key_events same_key_events_trans);
          [| intros ?; gait_frame_cases]).
  gait_frame_cases.
Qed.

Lemma walk_or_stand_same_key_events ct s :
  Obs.same_key_events s (state_of (Gait.walk_or_stand ct s)).
Proof.
  destruct (gait_walk_or_stand_cases ct s) as [(_ & t0 & _ & E) | (E & _)];
    rewrite E; gait_frame_cases.
Qed.

(** X3.  Key presses recorded while the robot is disconnected are not lost
    and not acted on: a disconnected iteration leaves them queued behind
    the ones already pending.  A connected iteration takes the whole queue,
    however it ends. *)
Theorem keys_wait_for_the_connection (s : Gait.Loop) (inp : Gait.Input) :
  (Gait.fb_connected inp = false ->
   Gait.key_events (state_of (Gait.tick s inp))
   = Gait.key_events s ++ Gait.pressed inp)
  /\ (Gait.fb_connected inp = true ->
      Gait.key_events (state_of (Gait.tick s inp)) = []).
Proof.
  split; intros Hc.
  - rewrite tick_disconnected by exact Hc. cbn [state_of].
    destruct (reconnect_spec (Gait.observe s inp)) as (_ & _ & _ & Hk).
    rewrite Hk. reflexivity.
  - rewrite tick_connected by exact Hc. cbv zeta.
    match goal with
    | |- Gait.key_events (state_of (?o >>> ?k1 >>> ?k2)) = [] =>
      assert (H : Obs.same_key_events
                    (Gait.with_key_events
                       (Gait.heartbeat
                          (Gait.now (Gait.robot (Gait.observe s inp)))
                          (Gait.observe s inp)) [])
                    (state_of (o >>> k1 >>> k2)))
    end.
    { apply (and_then_from Obs.same_key_events same_key_events_trans);
        [| intros ?; gait_frame_cases].
      apply (and_then_from Obs.same_key_events same_key_events_trans);
        [| intros ?; apply walk_or_stand_same_key_events].
      apply handle_keys_same_key_events. }
    exact H.
Qed.

(** A press of P during an outage, then the link back. *)
Lemma keys_wait_for_the_connection_witness :
  Gait.key_events
    (state_of
       (Gait.tick
          (Gait.start (Gait.mkRobot (0, 0, 0.28) 0 0 (0, 0, 0.28) true 0 0 []))
          (Gait.mkInput 0 false (0, 0, 0.28) 0 [ord_p])))
  = [] ++ [ord_p]
  /\ Gait.key_events
       (state_of
          (Gait.tick
             (Gait.with_key_events
                (Gait.start
                   (Gait.mkRobot (0, 0, 0.28) 0 0 (0, 0, 0.28) true 0 0 []))
                [ord_p])
             (Gait.mkInput 0 true (0, 0, 0.28) 0 [])))
     = [].
Proof.
  split.
  - exact (proj1 (keys_wait_for_the_connection
                    (Gait.start
                       (Gait.mkRobot (0, 0, 0.28) 0 0 (0, 0, 0.28) true 0 0 []))
                    (Gait.mkInput 0 false (0, 0, 0.28) 0 [ord_p])) eq_refl).
  - exact (proj2 (keys_wait_for_the_connection
                    (Gait.with_key_events
                       (Gait.start
                          (Gait.mkRobot (0, 0, 0.28) 0 0 (0, 0, 0.28) true 0 0 []))
                       [ord_p])
                    (Gait.mkInput 0 true (0, 0, 0.28) 0 [])) eq_refl).
Defined.

(** X4.  The heading correction of the real-robot loop is a saturated
    proportional term: it always lies in [-0.5, 0.5], equals half the
    heading error while that error is within one radian, and sticks at
    +0.5 or -0.5 beyond; in particular it is zero exactly on target. *)
Theorem yaw_correction_saturates (m : path_mode) (yaw : R) :
  -0.5 <= Gait.yaw_correction m yaw <= 0.5
  /\ Gait.yaw_correction m yaw
     = Rmax (-0.5) (Rmin 0.5 (Gait.yaw_error m yaw / 2))
  /\ (Gait.yaw_correction m yaw = 0 <-> Gait.yaw_error m yaw = 0).
Proof.
  unfold Gait.yaw_correction.
  set (e := Gait.yaw_error m yaw).
  split; [apply clamp_range; lra |]. split.
  - rewrite clamp_is_Rmax_Rmin. f_equal. f_equal. lra.
  - by_cases_on_order.
Qed.

(** ** The [PathController] the loops keep *)

Lemma pc_ok_init : Obs.pc_ok PathController.init.
Proof. repeat split. cbn. lia. Qed.

Lemma pc_ok_set_was_stopped c b :
  Obs.pc_ok c -> Obs.pc_ok (PathController.set_was_stopped c b).
Proof. intros (A & B & C). repeat split; assumption. Qed.

Lemma pc_ok_set_gaze_enabled c b :
  Obs.pc_ok c -> Obs.pc_ok (PathController.set_gaze_enabled c b).
Proof. intros (A & B & C). repeat split; assumption. Qed.

Lemma pc_ok_next_mode c :
  Obs.pc_ok c ->
  Obs.pc_ok (PathController.set_current_speed_mode c
               ((PathController.current_speed_mode c + 1) mod 6)).
Proof.
  intros (A & B & C). repeat split; try assumption.
  cbn [PathController.set_current_speed_mode PathController.current_speed_mode].
  apply Nat.mod_upper_bound. discriminate.
Qed.

Lemma pc_ok_note_stop c v : Obs.pc_ok c -> Obs.pc_ok (note_stop c v).
Proof.
  intros H. unfold note_stop.
  destruct (_ && _); [now apply pc_ok_set_was_stopped |].
  destruct (_ && _); [now apply pc_ok_set_was_stopped | exact H].
Qed.

Lemma pc_ok_length c :
  Obs.pc_ok c -> List.length (PathController.speed_modes c) = 6%nat.
Proof. intros (_ & B & _). rewrite B. reflexivity. Qed.

Lemma pc_ok_policy c :
  Obs.pc_ok c -> exists p, PathController.current_speed_mode c = Spec.index p.
Proof.
  intros (_ & _ & C). destruct (index_onto (PathController.current_speed_mode c))
    as [p Hp]; [exact C |]. now exists p.
Qed.

Lemma current_mode_ok c : Obs.pc_ok c -> exists m, current_mode c = Ok m.
Proof.
  intros (_ & B & C). unfold current_mode. rewrite B.
  destruct (nth_error _ _) as [m |] eqn:E; [now exists m |].
  apply nth_error_None in E. cbn in E. lia.
Qed.

Lemma get_speed_ok c d :
  Obs.pc_ok c ->
  exists p, PathController.current_speed_mode c = Spec.index p
            /\ PathController.get_speed c d = Ok (Spec.table 15 p d).
Proof.
  intros H. destruct (pc_ok_policy c H) as [p Hp]. exists p.
  split; [exact Hp |]. destruct H as (A & B & _).
  now apply get_speed_by_policy.
Qed.

(** Sequencing steps that do not raise and keep an invariant. *)
Lemma and_then_next {S : Type} (I : S -> Prop) (o : outcome S)
    (k : S -> outcome S) :
  (exists s1, o = Next s1 /\ I s1) ->
  (forall s1, I s1 -> exists s2, k s1 = Next s2 /\ I s2) ->
  exists s2, o >>> k = Next s2 /\ I s2.
Proof.
  intros (s1 & -> & H1) Hk. cbn [and_then]. now apply Hk.
Qed.

(** ** The simulation loop: the controller it keeps, and what the keys do *)

Lemma sim_on_space_ok inp s :
  Obs.pc_ok (Sim.pc s) ->
  exists s', Sim.on_space inp s = Next s' /\ Obs.pc_ok (Sim.pc s').
Proof.
  intros H. unfold Sim.on_space.
  destruct (Sim.triggered inp ord_space); [| now exists s].
  cbn [Sim.with_is_walking Sim.is_walking].
  destruct (negb (Sim.is_walking s)); eexists; (split; [reflexivity |]);
    cbn [Sim.with_pc Sim.pc Sim.with_start Sim.with_is_walking];
    [now apply pc_ok_set_was_stopped | exact H].
Qed.

Lemma sim_on_p_ok inp s :
  Obs.pc_ok (Sim.pc s) ->
  exists s', Sim.on_p inp s = Next s' /\ Obs.pc_ok (Sim.pc s').
Proof.
  intros H. unfold Sim.on_p.
  destruct (Sim.triggered inp ord_p); eexists; (split; [reflexivity | exact H]).
Qed.

Lemma sim_on_s_next inp s :
  Obs.pc_ok (Sim.pc s) ->
  Sim.triggered inp ord_s = true ->
  Sim.on_s inp s
  = Next (Sim.with_pc s
            (PathController.set_current_speed_mode (Sim.pc s)
               ((PathController.current_speed_mode (Sim.pc s) + 1) mod 6))).
Proof.
  intros H Ht. unfold Sim.on_s. rewrite Ht, (pc_ok_length _ H).
  cbn [Sim.with_pc Sim.pc].
  destruct (current_mode_ok _ (pc_ok_next_mode _ H)) as [m Hm].
  rewrite Hm. reflexivity.
Qed.

Lemma sim_on_s_ok inp s :
  Obs.pc_ok (Sim.pc s) ->
  exists s', Sim.on_s inp s = Next s' /\ Obs.pc_ok (Sim.pc s').
Proof.
  intros H. destruct (Sim.triggered inp ord_s) eqn:Ht.
  - rewrite (sim_on_s_next inp s H Ht). eexists. split; [reflexivity |].
    cbn [Sim.with_pc Sim.pc]. now apply pc_ok_next_mode.
  - unfold Sim.on_s. rewrite Ht. now exists s.
Qed.

Lemma sim_on_g_ok inp s :
  Obs.pc_ok (Sim.pc s) ->
  exists s', Sim.on_g inp s = Next s' /\ Obs.pc_ok (Sim.pc s').
Proof.
  intros H. unfold Sim.on_g.
  destruct (Sim.triggered inp ord_g); [| now exists s].
  cbn [Sim.with_pc Sim.pc].
  pose proof (pc_ok_set_gaze_enabled (Sim.pc s)
                (negb (PathController.gaze_enabled (Sim.pc s))) H) as H'.
  destruct (current_mode_ok _ H') as [m Hm]. rewrite Hm.
  eexists. split; [reflexivity | exact H'].
Qed.

Lemma sim_on_r_ok inp s :
  Obs.pc_ok (Sim.pc s) ->
  exists s', Sim.on_r inp s = Next s' /\ Obs.pc_ok (Sim.pc s').
Proof.
  intros H. unfold Sim.on_r.
  destruct (Sim.triggered inp ord_r); eexists; (split; [reflexivity |]);
    [| exact H].
  cbn [Sim.with_pc Sim.pc Sim.with_mode Sim.with_is_walking Sim.reset
       Sim.with_commands].
  now apply pc_ok_set_was_stopped.
Qed.

Lemma sim_handle_keys_ok inp s :
  Obs.pc_ok (Sim.pc s) ->
  exists s', Sim.handle_keys inp s = Next s' /\ Obs.pc_ok (Sim.pc s').
Proof.
  intros H. unfold Sim.handle_keys.
  apply (and_then_next (fun s => Obs.pc_ok (Sim.pc s)));
    [| intros ?; apply sim_on_r_ok].
  apply (and_then_next (fun s => Obs.pc_ok (Sim.pc s)));
    [| intros ?; apply sim_on_g_ok].
  apply (and_then_next (fun s => Obs.pc_ok (Sim.pc s)));
    [| intros ?; apply sim_on_s_ok].
  apply (and_then_next (fun s => Obs.pc_ok (Sim.pc s)));
    [| intros ?; apply sim_on_p_ok].
  now apply sim_on_space_ok.
Qed.

Lemma sim_walk_ok inp t0 s :
  Obs.pc_ok (Sim.pc s) ->
  exists s', Sim.walk inp t0 s = Next s' /\ Obs.pc_ok (Sim.pc s').
Proof.
  intros H. unfold Sim.walk.
  cbn [PathController.call_get_speed Sim.with_distance_traveled Sim.pc].
  destruct (get_speed_ok (Sim.pc s)
              (displacement (Sim.initial_pos s) (Sim.position inp)) H)
    as (p & _ & Hv).
  rewrite Hv.
  cbn [Sim.with_pc Sim.set_base_velocity Sim.with_commands
       Sim.with_target_speed Sim.with_distance_traveled Sim.pc].
  destruct (geb _ _); eexists; (split; [reflexivity |]);
    cbn [Sim.with_is_walking Sim.pc]; now apply pc_ok_note_stop.
Qed.

Lemma sim_walk_or_stand_ok inp s :
  Obs.pc_ok (Sim.pc s) ->
  exists s', Sim.walk_or_stand inp s = Next s' /\ Obs.pc_ok (Sim.pc s').
Proof.
  intros H. unfold Sim.walk_or_stand.
  destruct (Sim.is_walking s); [destruct (Sim.start_time s) |];
    try (eexists; split; [reflexivity | exact H]).
  now apply sim_walk_ok.
Qed.

Lemma sim_tick_ok s inp :
  Obs.pc_ok (Sim.pc s) ->
  exists s', Sim.tick s inp = Next s' /\ Obs.pc_ok (Sim.pc s').
Proof.
  intros H. unfold Sim.tick.
  apply (and_then_next (fun s => Obs.pc_ok (Sim.pc s)));
    [| intros ?; apply sim_walk_or_stand_ok].
  now apply sim_handle_keys_ok.
Qed.

(** X5.  The simulation loop keeps its [PathController] sound: after any
    number of iterations from the state [main] sets up, whatever the keys,
    times and positions of each iteration, the controller still has its
    path length of 15, its six speed modes and a mode index inside them.
    So in no iteration can the lookup [speed_modes[current_speed_mode]]
    fail or [get_speed] divide by zero: the lookup gives one of the six
    names and [get_speed] a number, for every distance. *)
Theorem simulation_keeps_path_controller_sound (inps : list Sim.Input) :
  let c := Sim.pc (state_of (Sim.run Sim.init inps)) in
  Obs.pc_ok c
  /\ (exists m : string,
         current_mode c = Ok m
         /\ In m (PathController.speed_modes PathController.init))
  /\ (forall d : R, exists v : R, PathController.get_speed c d = Ok v).
Proof.
  cbv zeta.
  assert (G : forall s0, Obs.pc_ok (Sim.pc s0) ->
                         exists s, Sim.run s0 inps = Next s
                                   /\ Obs.pc_ok (Sim.pc s)).
  { induction inps as [|inp inps IH]; intros s0 H0; cbn [Sim.run].
    - now exists s0.
    - destruct (sim_tick_ok s0 inp H0) as (s1 & E & H1). rewrite E.
      now apply IH. }
  destruct (G Sim.init pc_ok_init) as (s & E & H).
  rewrite E. cbn [state_of]. split; [exact H |]. split.
  - destruct (current_mode_ok _ H) as [m Hm]. exists m.
    split; [exact Hm |].
    destruct H as (_ & B & _). unfold current_mode in Hm. rewrite B in Hm.
    destruct (nth_error _ _) as [m' |] eqn:N; [| discriminate].
    apply nth_error_In in N. congruence.
  - intros d. destruct (get_speed_ok _ d H) as (p & _ & V).
    eexists. exact V.
Qed.

Lemma press_s_spec inp (n : nat) : forall s : Sim.Loop,
  Obs.pc_ok (Sim.pc s) ->
  Sim.triggered inp ord_s = true ->
  exists s',
    Obs.press_s inp n s = Next s'
    /\ Obs.pc_ok (Sim.pc s')
    /\ PathController.current_speed_mode (Sim.pc s')
       = ((PathController.current_speed_mode (Sim.pc s) + n) mod 6)%nat
    /\ Obs.same_but_mode s' (Sim.with_pc s (Sim.pc s'))
    /\ PathController.gaze_enabled (Sim.pc s')
       = PathController.gaze_enabled (Sim.pc s)
    /\ PathController.was_stopped (Sim.pc s')
       = PathController.was_stopped (Sim.pc s)
    /\ Sim.mode s' = Sim.mode s.
Proof.
  induction n as [|n IH]; intros s H Ht; cbn [Obs.press_s].
  - exists s. split; [reflexivity |]. split; [exact H |].
    destruct H as (_ & _ & C).
    rewrite Nat.add_0_r, Nat.mod_small by exact C.
    repeat split.
  - rewrite (sim_on_s_next inp s H Ht). cbn [and_then].
    assert (H1 : Obs.pc_ok
                   (Sim.pc
                      (Sim.with_pc s
                         (PathController.set_current_speed_mode (Sim.pc s)
                            ((PathController.current_speed_mode (Sim.pc s) + 1)
                               mod 6)))))
      by (apply pc_ok_next_mode; exact H).
    destruct (IH _ H1 Ht) as (s' & E & H' & Hm & Hs & Hg & Hw & Hmo).
    exists s'. split; [exact E |]. split; [exact H' |].
    cbn [Sim.with_pc Sim.pc PathController.set_current_speed_mode
         PathController.current_speed_mode PathController.gaze_enabled
         PathController.was_stopped Sim.mode] in Hm, Hg, Hw, Hmo, Hs.
    repeat split; try assumption; try apply Hs.
    rewrite Hm, Nat.Div0.add_mod_idemp_l. f_equal. lia.
Qed.

(** X6.  The key S steps through the speed modes in a cycle of six: after
    [n] presses the mode index is the old one plus [n] modulo 6, so six
    presses come back to the mode they started from; the presses touch
    nothing else (gaze, stop latch, walking state, commands). *)
Theorem speed_mode_key_cycles (inp : Sim.Input) (n : nat) (s : Sim.Loop) :
  Obs.pc_ok (Sim.pc s) ->
  Sim.triggered inp ord_s = true ->
  exists s' s6,
    Obs.press_s inp n s = Next s'
    /\ PathController.current_speed_mode (Sim.pc s')
       = ((PathController.current_speed_mode (Sim.pc s) + n) mod 6)%nat
    /\ Obs.press_s inp 6 s = Next s6
    /\ PathController.current_speed_mode (Sim.pc s6)
       = PathController.current_speed_mode (Sim.pc s)
    /\ Obs.same_but_mode s' (Sim.with_pc s (Sim.pc s'))
    /\ Sim.mode s' = Sim.mode s
    /\ PathController.gaze_enabled (Sim.pc s')
       = PathController.gaze_enabled (Sim.pc s)
    /\ PathController.was_stopped (Sim.pc s')
       = PathController.was_stopped (Sim.pc s).
Proof.
  intros H Ht.
  destruct (press_s_spec inp n s H Ht) as (s' & E & _ & Hm & Hs & Hg & Hw & Hmo).
  destruct (press_s_spec inp 6 s H Ht) as (s6 & E6 & _ & Hm6 & _).
  exists s', s6. repeat split; try assumption; try apply Hs.
  rewrite Hm6. destruct H as (_ & _ & C).
  rewrite <- (Nat.mul_1_l 6) at 1.
  rewrite Nat.Div0.mod_add. now apply Nat.mod_small.
Qed.

(** Three presses from the mode the program starts in. *)
Lemma speed_mode_key_cycles_witness :
  exists s' s6,
    Obs.press_s (Sim.mkInput 0 (0, 0, 0.4) (Nat.eqb ord_s)) 3 Sim.init
    = Next s'
    /\ PathController.current_speed_mode (Sim.pc s') = ((0 + 3) mod 6)%nat
    /\ Obs.press_s (Sim.mkInput 0 (0, 0, 0.4) (Nat.eqb ord_s)) 6 Sim.init
       = Next s6
    /\ PathController.current_speed_mode (Sim.pc s6) = 0%nat.
Proof.
  destruct (speed_mode_key_cycles
              (Sim.mkInput 0 (0, 0, 0.4) (Nat.eqb ord_s)) 3 Sim.init
              pc_ok_init eq_refl)
    as (s' & s6 & A & B & C & D & _).
  exists s', s6. repeat split; assumption.
Defined.

Lemma last_command_snoc (s : Sim.Loop) l c :
  Sim.commands s = l ++ [c] -> Obs.last_command s = Some c.
Proof.
  intros E. unfold Obs.last_command. rewrite E, rev_app_distr. reflexivity.
Qed.

(** X7.  A simulation iteration that begins at rest and sees no SPACE ends
    at rest with a zero-velocity command as the last one sent, whatever
    other keys are pressed; so the speed command left behind at the end of
    the path is overwritten by the very next iteration. *)
Theorem idle_simulation_tick_sends_stop (s : Sim.Loop) (inp : Sim.Input) :
  Obs.pc_ok (Sim.pc s) ->
  Sim.is_walking s = false ->
  Sim.triggered inp ord_space = false ->
  exists s',
    Sim.tick s inp = Next s'
    /\ Sim.is_walking s' = false
    /\ Obs.last_command s' = Some (zero3, zero3).
Proof.
  intros H Hw Hsp. unfold Sim.tick.
  destruct (sim_handle_keys_ok inp s H) as (s1 & E & H1). rewrite E.
  cbn [and_then].
  assert (Hw1 : Sim.is_walking s1 = false).
  { destruct (Sim.is_walking s1) eqn:W; [| reflexivity].
    pose proof (sim_handle_keys_walking inp s s1 E W) as K.
    rewrite Hsp in K. destruct K as (K & _). congruence. }
  unfold Sim.walk_or_stand. rewrite Hw1.
  eexists. split; [reflexivity |]. split; [exact Hw1 |].
  eapply last_command_snoc. reflexivity.
Qed.

(** The iteration after the path has ended at (0, 15, 0.4). *)
Lemma idle_simulation_tick_sends_stop_witness :
  exists s',
    Sim.tick
      (Sim.with_commands Sim.init [((0, 3, 0), (0, 0, 0))])
      (Sim.mkInput 2 (0, 15, 0.4) (fun _ => false)) = Next s'
    /\ Sim.is_walking s' = false
    /\ Obs.last_command s' = Some (zero3, zero3).
Proof.
  apply idle_simulation_tick_sends_stop.
  - exact pc_ok_init.
  - reflexivity.
  - reflexivity.
Defined.

Lemma same_but_mode_refl s : Obs.same_but_mode s s.
Proof. repeat split. Qed.

Lemma sim_tick_same_but_mode (s1 s2 : Sim.Loop) (inp : Sim.Input) :
  Obs.same_but_mode s1 s2 ->
  Obs.same_outcome_but_mode (Sim.tick s1 inp) (Sim.tick s2 inp).
Proof.
  destruct s1 as [c1 p1 m1 w1 t1 i1 d1 v1], s2 as [c2 p2 m2 w2 t2 i2 d2 v2].
  unfold Obs.same_but_mode.
  cbn [Sim.commands Sim.pc Sim.is_walking Sim.start_time Sim.initial_pos
       Sim.distance_traveled Sim.target_speed].
  intros (-> & -> & -> & -> & -> & -> & ->).
  unfold Sim.tick, Sim.handle_keys, Sim.on_space, Sim.on_p, Sim.on_s,
    Sim.on_g, Sim.on_r, Sim.reset.
  destruct w2;
    repeat (cbn [and_then Sim.with_is_walking Sim.with_start Sim.with_pc
                 Sim.with_mode Sim.with_commands Sim.is_walking
                 Sim.start_time Sim.initial_pos Sim.pc Sim.commands Sim.mode
                 Sim.distance_traveled Sim.target_speed negb];
            match goal with
            | |- context [if Sim.triggered ?i ?k then _ else _] =>
              destruct (Sim.triggered i k)
            | |- context [match List.length ?l with _ => _ end] =>
              destruct (List.length l)
            | |- context [match current_mode ?c with _ => _ end] =>
              destruct (current_mode c)
            end);
    cbn [and_then Sim.with_is_walking Sim.with_start Sim.with_pc
         Sim.with_mode Sim.with_commands];
    unfold Sim.walk_or_stand, Sim.walk, Sim.set_base_velocity;
    cbn [Sim.with_is_walking Sim.with_start Sim.with_pc Sim.with_mode
         Sim.with_commands Sim.with_distance_traveled Sim.with_target_speed
         Sim.is_walking Sim.start_time Sim.initial_pos Sim.pc Sim.commands
         Sim.mode Sim.distance_traveled Sim.target_speed
         PathController.call_get_speed];
    repeat (match goal with
            | |- context [match ?t with Some _ => _ | None => _ end] =>
              destruct t
            | |- context [match PathController.get_speed ?c ?d with _ => _ end] =>
              destruct (PathController.get_speed c d)
            | |- context [if geb ?a ?b then _ else _] => destruct (geb a b)
            end;
            cbn [Sim.with_is_walking Sim.with_start Sim.with_pc Sim.with_mode
                 Sim.with_commands Sim.with_distance_traveled
                 Sim.with_target_speed Sim.is_walking Sim.start_time
                 Sim.initial_pos Sim.pc Sim.commands Sim.mode
                 Sim.distance_traveled Sim.target_speed]);
    cbn [Obs.same_outcome_but_mode Obs.same_but_mode Sim.is_walking
         Sim.start_time Sim.initial_pos Sim.pc Sim.commands
         Sim.distance_traveled Sim.target_speed];
    repeat split.
Qed.

Lemma sim_run_same_but_mode (inps : list Sim.Input) :
  forall s1 s2 : Sim.Loop,
    Obs.same_but_mode s1 s2 ->
    Obs.same_outcome_but_mode (Sim.run s1 inps) (Sim.run s2 inps).
Proof.
  induction inps as [|inp inps IH]; intros s1 s2 H; cbn [Sim.run].
  - exact H.
  - pose proof (sim_tick_same_but_mode s1 s2 inp H) as Ht.
    destruct (Sim.tick s1 inp) as [a | e a], (Sim.tick s2 inp) as [b | e' b];
      cbn [Obs.same_outcome_but_mode] in Ht; try contradiction.
    + now apply IH.
    + exact Ht.
Qed.

(** X8.  In the simulation the path mode is cosmetic: started in either
    mode, and whatever the inputs, a run sends the same velocity commands,
    walks and stops at the same iterations and measures the same distance.
    (Both of its branches command the same velocity along +Y.) *)
Theorem simulation_path_mode_is_cosmetic
    (s : Sim.Loop) (m : path_mode) (inps : list Sim.Input) :
  let o1 := Sim.run (Sim.with_mode s m) inps in
  let o2 := Sim.run s inps in
  Sim.commands (state_of o1) = Sim.commands (state_of o2)
  /\ Sim.is_walking (state_of o1) = Sim.is_walking (state_of o2)
  /\ Sim.distance_traveled (state_of o1) = Sim.distance_traveled (state_of o2)
  /\ Sim.pc (state_of o1) = Sim.pc (state_of o2).
Proof.
  cbv zeta.
  pose proof (sim_run_same_but_mode inps (Sim.with_mode s m) s
                ltac:(repeat split)) as H.
  destruct (Sim.run (Sim.with_mode s m) inps) as [a | e a],
           (Sim.run s inps) as [b | e' b];
    cbn [Obs.same_outcome_but_mode state_of] in *; try contradiction.
  - destruct H as (A & B & C & _ & _ & D & _). repeat split; assumption.
  - destruct H as (_ & A & B & C & _ & _ & D & _). repeat split; assumption.
Qed.

(** ** Gaze, the stop latch and the stop band *)

Lemma Rabs_le_between (a b : R) : Rabs a <= b -> - b <= a <= b.
Proof. unfold Rabs. destruct (Rcase_abs a); lra. Qed.

Lemma gaze_angle_bound (c : PathController.t) (t : R) :
  Rabs (PathController.get_gaze_angle c t) <= 15.
Proof.
  unfold PathController.get_gaze_angle.
  destruct (negb (PathController.gaze_enabled c)).
  - rewrite Rabs_R0. lra.
  - apply Rabs_le. pose proof (SIN_bound (0.5 * t)) as [A B]. lra.
Qed.

(** X9.  The gaze angle is an oscillation of at most 15 degrees, and is 0
    when gaze is disabled and at the start of an episode; the yaw rate the
    simulation commands from it in a walking iteration is therefore at most
    PI/120 rad/s, and the command of a walking iteration moves along +Y
    only. *)
Theorem gaze_is_a_small_oscillation :
  (forall (c : PathController.t) (t : R),
      Rabs (PathController.get_gaze_angle c t) <= 15
      /\ PathController.get_gaze_angle
           (PathController.set_gaze_enabled c false) t = 0
      /\ PathController.get_gaze_angle c 0 = 0)
  /\ (forall (inp : Sim.Input) (t0 : R) (s s' : Sim.Loop),
         Sim.walk inp t0 s = Next s' ->
         exists v w,
           Sim.commands s' = Sim.commands s ++ [((0, v, 0), (0, 0, w))]
           /\ Sim.target_speed s' = Some v
           /\ Rabs w <= PI / 120).
Proof.
  split.
  - intros c t. split; [apply gaze_angle_bound |]. split.
    + reflexivity.
    + unfold PathController.get_gaze_angle.
      destruct (negb _); [reflexivity |].
      rewrite Rmult_0_r, sin_0. lra.
  - intros inp t0 s s'. unfold Sim.walk.
    destruct (PathController.call_get_speed _ _) as [v | e];
      [| discriminate].
    cbn [Sim.with_pc Sim.set_base_velocity Sim.with_commands
         Sim.with_target_speed Sim.with_distance_traveled Sim.pc Sim.commands].
    set (g := PathController.get_gaze_angle (Sim.pc s)
                (Sim.current_time inp - t0)).
    assert (B : Rabs (radians g * 0.1) <= PI / 120).
    { unfold radians. pose proof (gaze_angle_bound (Sim.pc s)
                                    (Sim.current_time inp - t0)) as G.
      fold g in G. apply Rabs_le_between in G. apply Rabs_le.
      pose proof PI_RGT_0. split; nra. }
    destruct (geb _ _); intros E; inversion E; subst; clear E;
      exists v, (radians g * 0.1);
      cbn [Sim.with_is_walking Sim.commands Sim.target_speed];
      repeat split; exact B.
Qed.

(** A walking iteration of the simulation, three seconds into an episode. *)
Lemma gaze_is_a_small_oscillation_witness :
  exists v w,
    Sim.commands
      (state_of
         (Sim.walk (Sim.mkInput 3 (0, 4, 0.4) (fun _ => false)) 0
            (Sim.with_is_walking (Sim.with_start Sim.init 0 (0, 0, 0.4)) true)))
    = [] ++ [((0, v, 0), (0, 0, w))]
    /\ Rabs w <= PI / 120.
Proof.
  destruct (sim_walk_ok (Sim.mkInput 3 (0, 4, 0.4) (fun _ => false)) 0
              (Sim.with_is_walking (Sim.with_start Sim.init 0 (0, 0, 0.4)) true)
              pc_ok_init) as (s' & E & _).
  destruct (proj2 gaze_is_a_small_oscillation _ _ _ _ E)
    as (v & w & A & _ & B).
  exists v, w. rewrite E. cbn [state_of]. split; [exact A | exact B].
Defined.

(** X10.  The stop/resume bookkeeping, though written on edges, leaves the
    latch at a level: after it, [was_stopped] is true exactly when the
    target speed is 0.0, whatever it was before; doing it twice is doing it
    once, and it touches nothing else of the [PathController]. *)
Theorem stop_latch_follows_target_speed (c : PathController.t) (v : R) :
  PathController.was_stopped (note_stop c v) = eqb v 0
  /\ note_stop (note_stop c v) v = note_stop c v
  /\ PathController.set_was_stopped (note_stop c v)
       (PathController.was_stopped c) = c.
Proof.
  destruct c as [l ms i g w]. unfold note_stop.
  cbn [PathController.was_stopped].
  destruct (eqb v 0), w; cbn; repeat split.
Qed.

Lemma Ok_inj {A : Type} (x y : A) : Ok x = Ok y <-> x = y.
Proof. split; [intros H; now inversion H | now intros ->]. Qed.

(** X11.  On the path, between 0 and 15, the speed evaluator returns 0
    exactly in the stop band of the two pause modes: the mode is
    [1_stop_1] or [3_stop_3] and the distance is at least 8 and below 8.5.
    No other mode ever commands a standstill there. *)
Theorem speed_is_zero_only_in_the_stop_band (c : PathController.t) (d : R) :
  Obs.pc_ok c ->
  0 <= d <= 15 ->
  (PathController.get_speed c d = Ok 0
   <-> (4 <= PathController.current_speed_mode c)%nat /\ 8 <= d < 8.5).
Proof.
  intros H Hd. destruct (get_speed_ok c d H) as (p & Hp & Hv).
  rewrite Hv, Ok_inj, Hp.
  destruct p; cbn [Spec.index Spec.table];
    repeat match goal with
           | |- context [Rlt_dec ?a ?b] => destruct (Rlt_dec a b)
           end;
    split; intros K; try lra; try lia;
    try (destruct K; first [lia | lra]);
    try (split; [lia | lra]).
Qed.

(** The first pause mode in the middle of its stop band. *)
Lemma speed_is_zero_only_in_the_stop_band_witness :
  PathController.get_speed
    (PathController.set_current_speed_mode PathController.init 4) 8.2 = Ok 0
  <-> (4 <= 4)%nat /\ 8 <= 8.2 < 8.5.
Proof.
  apply (speed_is_zero_only_in_the_stop_band
           (PathController.set_current_speed_mode PathController.init 4) 8.2).
  - repeat split. cbn. lia.
  - lra.
Defined.

(** ** The real robot: the reset key *)

Lemma gait_on_space_ready keys ct p y s :
  Obs.gait_ready p y s ->
  exists s', Gait.on_space keys ct s = Next s' /\ Obs.gait_ready p y s'.
Proof.
  intros (H & Hp & Hy). unfold Gait.on_space.
  destruct (Gait.has_key keys ord_space); [| now exists s].
  cbn [Gait.with_is_walking Gait.is_walking].
  destruct (negb (Gait.is_walking s)); eexists; (split; [reflexivity |]);
    unfold Obs.gait_ready, Gait.send_stop;
    cbn [Gait.with_pc Gait.pc Gait.with_start Gait.with_is_walking
         Gait.with_robot Gait.robot];
    [split; [now apply pc_ok_set_was_stopped | now split] |].
  rewrite stop_is_zero_cmd. cbn [Gait.current_position Gait.current_yaw].
  split; [exact H | split; assumption].
Qed.

Lemma gait_on_p_ready keys p y s :
  Obs.gait_ready p y s ->
  exists s', Gait.on_p keys s = Next s' /\ Obs.gait_ready p y s'.
Proof.
  intros H. unfold Gait.on_p.
  destruct (Gait.has_key keys ord_p); eexists; (split; [reflexivity | exact H]).
Qed.

Lemma gait_on_s_ready keys p y s :
  Obs.gait_ready p y s ->
  exists s', Gait.on_s keys s = Next s' /\ Obs.gait_ready p y s'.
Proof.
  intros (H & Hp & Hy). unfold Gait.on_s.
  destruct (Gait.has_key keys ord_s); [| now exists s].
  rewrite (pc_ok_length _ H). cbn [Gait.with_pc Gait.pc].
  destruct (current_mode_ok _ (pc_ok_next_mode _ H)) as [m Hm].
  rewrite Hm. eexists. split; [reflexivity |].
  split; [| now split]. cbn [Gait.with_pc Gait.pc]. now apply pc_ok_next_mode.
Qed.

Lemma gait_on_g_ready keys p y s :
  Obs.gait_ready p y s ->
  exists s', Gait.on_g keys s = Next s' /\ Obs.gait_ready p y s'.
Proof.
  intros (H & Hp & Hy). unfold Gait.on_g.
  destruct (Gait.has_key keys ord_g); [| now exists s].
  cbn [Gait.with_pc Gait.pc].
  pose proof (pc_ok_set_gaze_enabled (Gait.pc s)
                (negb (PathController.gaze_enabled (Gait.pc s))) H) as H'.
  destruct (current_mode_ok _ H') as [m Hm]. rewrite Hm.
  eexists. split; [reflexivity |]. split; [exact H' | now split].
Qed.

(** X12.  The key R always wins: in a connected iteration whose keys include
    R, whatever else was pressed (SPACE included) and whatever the loop was
    doing, the iteration completes without raising, ends at rest in
    leftward mode with the stop latch cleared, has taken the robot's
    fed-back position and yaw as the new start pose, and the last command
    it has sent is the zero-velocity command. *)
Theorem reset_key_always_wins (s : Gait.Loop) (inp : Gait.Input) :
  Obs.pc_ok (Gait.pc s) ->
  Gait.fb_connected inp = true ->
  Gait.has_key (Gait.key_events s ++ Gait.pressed inp) ord_r = true ->
  exists s',
    Gait.tick s inp = Next s'
    /\ Gait.is_walking s' = false
    /\ Gait.mode s' = leftward
    /\ PathController.was_stopped (Gait.pc s') = false
    /\ Gait.start_pos (Gait.robot s') = Gait.fb_position inp
    /\ Gait.initial_yaw (Gait.robot s') = Gait.fb_yaw inp
    /\ Gait.last_published (Gait.robot s') = Some Gait.zero_cmd.
Proof.
  intros H Hc Hr. rewrite tick_connected by exact Hc. cbv zeta.
  set (s1 := Gait.observe s inp).
  set (ct := Gait.now (Gait.robot s1)).
  set (s2 := Gait.heartbeat ct s1).
  assert (R2 : Obs.gait_ready (Gait.fb_position inp) (Gait.fb_yaw inp)
                 (Gait.with_key_events s2 [])).
  { unfold s2, Gait.heartbeat, Gait.send_stop, Obs.gait_ready.
    destruct (gtb _ _);
      cbn [Gait.with_key_events Gait.with_robot Gait.pc Gait.robot];
      [rewrite stop_is_zero_cmd |];
      (split; [exact H | split; reflexivity]). }
  assert (K2 : Gait.key_events s2 = Gait.key_events s ++ Gait.pressed inp).
  { destruct (heartbeat_frame ct s1) as (_ & K & _). exact K. }
  rewrite K2. unfold Gait.handle_keys.
  set (keys := Gait.key_events s ++ Gait.pressed inp) in *.
  destruct (and_then_next
              (Obs.gait_ready (Gait.fb_position inp) (Gait.fb_yaw inp))
              (Gait.on_space keys ct (Gait.with_key_events s2 [])
                 >>> Gait.on_p keys >>> Gait.on_s keys)
              (Gait.on_g keys)) as (s4 & E4 & (H4 & P4 & Y4)).
  { apply (and_then_next
             (Obs.gait_ready (Gait.fb_position inp) (Gait.fb_yaw inp)));
      [| intros ?; apply gait_on_s_ready].
    apply (and_then_next
             (Obs.gait_ready (Gait.fb_position inp) (Gait.fb_yaw inp)));
      [| intros ?; apply gait_on_p_ready].
    now apply gait_on_space_ready. }
  { intros ?. apply gait_on_g_ready. }
  rewrite E4. cbn [and_then]. unfold Gait.on_r. rewrite Hr.
  cbn [and_then]. unfold Gait.walk_or_stand.
  cbn [Gait.with_pc Gait.with_mode Gait.with_is_walking Gait.with_robot
       Gait.is_walking and_then Gait.pace].
  eexists. split; [reflexivity |].
  unfold Gait.send_stop, Gait.reset.
  cbn [Gait.with_pc Gait.with_mode Gait.with_is_walking Gait.with_robot
       Gait.is_walking Gait.mode Gait.pc Gait.robot
       PathController.set_was_stopped PathController.was_stopped].
  rewrite !stop_is_zero_cmd.
  cbn [Gait.sleep Gait.start_pos Gait.initial_yaw Gait.current_position
       Gait.current_yaw Gait.published Gait.now Gait.is_connected
       Gait.last_cmd_time].
  repeat split; try assumption.
  eapply last_published_snoc. cbn [Gait.sleep Gait.published]. reflexivity.
Qed.

(** SPACE and R pressed together on a robot at rest. *)
Lemma reset_key_always_wins_witness :
  exists s',
    Gait.tick
      (Gait.start (Gait.mkRobot (0, 0, 0.28) 0 0 (0, 0, 0.28) true 0 0 []))
      (Gait.mkInput 0 true (1, 2, 0.28) 0.3 [ord_space; ord_r]) = Next s'
    /\ Gait.is_walking s' = false
    /\ Gait.start_pos (Gait.robot s') = (1, 2, 0.28).
Proof.
  destruct (reset_key_always_wins
              (Gait.start
                 (Gait.mkRobot (0, 0, 0.28) 0 0 (0, 0, 0.28) true 0 0 []))
              (Gait.mkInput 0 true (1, 2, 0.28) 0.3 [ord_space; ord_r])
              pc_ok_init eq_refl eq_refl)
    as (s' & A & B & _ & _ & C & _).
  exists s'. repeat split; assumption.
Defined.

(** ** The unified controller: planners and update *)

Lemma normalize_inside (d : R) :
  -180 <= d <= 180 -> Unified.normalize d = d.
Proof.
  intros Hd. unfold Unified.normalize.
  pose proof (turns_cover d) as C.
  destruct (while_above_spec (Unified.turns d) d) as (_ & A2 & _).
  { pose proof (Rle_abs d). lra. }
  rewrite A2 by lra.
  destruct (while_below_spec (Unified.turns d) d) as (_ & B2 & _).
  { pose proof (Rle_abs (- d)) as K. rewrite Rabs_Ropp in K. lra. }
  apply B2. lra.
Qed.

(** X13.  Within the range the controller works in (a target gaze within
    [-90, 90], as [set_gaze] clamps it, and a yaw within one turn of zero)
    [calculate_orientation] of the straight planner turns the short way.
    Each of its two loops has left after at most one iteration; the step
    added to the yaw is the smoothing factor times the difference
    [target - yaw] brought into [-180, 180] by at most one whole turn, and
    what remains of the error afterwards, up to that turn, is the fraction
    [1 - gaze_smoothing] of it. *)
Theorem calculate_orientation_turns_short_way
    (g : R) (st : Unified.RobotState) (target : R) :
  -90 <= target <= 90 ->
  -360 <= Unified.orientation st <= 360 ->
  let yaw := Unified.orientation st in
  let d := target - yaw in
  let e := Unified.while_below 1 (Unified.while_above 1 d) in
  let new_yaw := Unified.straight_orientation g st target in
  Unified.while_above 1 d <= 180
  /\ -180 <= e <= 180
  /\ (forall n : nat, (1 <= n)%nat ->
        Unified.while_below n (Unified.while_above n d) = e)
  /\ e = (if gtb d 180 then d - 360
          else if ltb d (-180) then d + 360 else d)
  /\ new_yaw = yaw + e * g
  /\ target - new_yaw = (1 - g) * e - (e - d)
  /\ (-180 <= d <= 180 -> e = d).
Proof.
  intros Ht Hy. cbv zeta.
  set (d := target - Unified.orientation st).
  assert (Hd : Rabs d <= 540) by (apply Rabs_le; unfold d; lra).
  assert (N1 : Unified.normalize d
               = Unified.while_below 1 (Unified.while_above 1 d))
    by (apply normalize_with_fuel; cbn [INR]; lra).
  assert (E1 : Unified.normalize d
               = if gtb d 180 then d - 360
                 else if ltb d (-180) then d + 360 else d)
    by (apply normalize_one_round; exact Hd).
  pose proof (Rabs_le_between _ _ Hd) as B.
  destruct (while_above_spec 1 d) as (A1 & _); [cbn [INR]; lra |].
  split; [exact A1 |].
  split; [rewrite <- N1; apply normalize_spec |].
  split.
  { intros n Hn. rewrite <- N1. symmetry. apply normalize_with_fuel.
    assert (1 <= INR n) by (change 1 with (INR 1); apply le_INR; exact Hn).
    lra. }
  split; [rewrite <- N1; exact E1 |].
  unfold Unified.straight_orientation. fold d. rewrite <- N1.
  split; [reflexivity |]. split; [unfold d; lra |].
  apply normalize_inside.
Qed.

(** From yaw 170 to the gaze -90: a hundred degrees on through 180, not 260
    back. *)
Lemma calculate_orientation_turns_short_way_witness :
  Unified.straight_orientation 0.1
    (Unified.mkState zero3 170 0 true 0 "forward") (-90)
  = 170 + (-90 - 170 + 360) * 0.1.
Proof.
  destruct (calculate_orientation_turns_short_way 0.1
              (Unified.mkState zero3 170 0 true 0 "forward") (-90))
    as (_ & _ & _ & E & N & _); [lra | cbn [Unified.orientation]; lra |].
  cbn [Unified.orientation] in E, N. rewrite N, E. by_cases_on_order.
Defined.

(** X14.  Neither planner changes the height of the robot; a robot that is
    not moving stays where it is; the straight planner moves by
    [velocity * dt] along X in rightward mode and along Z in any other
    mode; the adaptive planner stays within 2 cm of the straight one on
    each axis. *)
Theorem planners_step_along_the_path
    (p : Unified.planner) (t : R) (st : Unified.RobotState) (dt : R) :
  let q := Unified.straight_next_position st dt in
  let q' := Unified.calculate_next_position p t st dt in
  nth1 q' = nth1 (Unified.position st)
  /\ Rabs (nth0 q' - nth0 q) <= 0.02
  /\ Rabs (nth2 q' - nth2 q) <= 0.02
  /\ q = (if Unified.is_moving st then
            if (Unified.mode st =? "rightward")%string
            then (nth0 (Unified.position st) + Unified.velocity st * dt,
                  nth1 (Unified.position st), nth2 (Unified.position st))
            else (nth0 (Unified.position st), nth1 (Unified.position st),
                  nth2 (Unified.position st) + Unified.velocity st * dt)
          else Unified.position st).
Proof.
  cbv zeta.
  assert (Z0 : forall x : R, Rabs (x - x) <= 0.02).
  { intros x. replace (x - x) with 0 by lra. rewrite Rabs_R0. lra. }
  assert (S : forall x a : R, Rabs (x + sin a * 0.02 - x) <= 0.02).
  { intros x a. replace (x + sin a * 0.02 - x) with (sin a * 0.02) by lra.
    apply Rabs_le. pose proof (SIN_bound a). lra. }
  unfold Unified.calculate_next_position, Unified.straight_next_position.
  destruct p as [l g | l]; destruct (Unified.is_moving st); cbn [negb];
    destruct (Unified.position st) as [[x y] z];
    repeat match goal with
           | |- context [String.eqb ?a ?b] => destruct (String.eqb a b)
           end;
    cbn [nth0 nth1 nth2 fst snd];
    repeat split; try apply Z0; try apply S;
    try (f_equal; f_equal; lra); try (f_equal; lra).
Qed.

Lemma update_shape (c : Unified.Controller) (t dt : R) :
  Unified.is_moving (Unified.current_state c) = true ->
  exists c',
    Unified.is_moving (Unified.current_state c') = true
    /\ Unified.mode (Unified.current_state c')
       = Unified.mode (Unified.current_state c)
    /\ Unified.velocity (Unified.current_state c')
       = Unified.velocity (Unified.current_state c)
    /\ Unified.target_speed c' = Unified.target_speed c
    /\ Unified.target_gaze c' = Unified.target_gaze c
    /\ Unified.path_planner c' = Unified.path_planner c
    /\ Unified.transport c' = Unified.transport c
    /\ Unified.update c t dt
       = (if geb (Unified.distance_traveled (Unified.current_state c'))
                 (Unified.path_length_of (Unified.path_planner c))
          then Raised AttributeError c' else Next c').
Proof.
  intros Hm. exists (state_of (Unified.update c t dt)).
  unfold Unified.update. rewrite Hm.
  cbn [Unified.is_moving Unified.mode Unified.velocity
       Unified.distance_traveled Unified.position Unified.orientation].
  match goal with
  | |- context [if geb ?a ?b then _ else _] => destruct (geb a b) eqn:G
  end;
    cbn [state_of Unified.with_state Unified.current_state Unified.is_moving
         Unified.mode Unified.velocity Unified.target_speed
         Unified.target_gaze Unified.path_planner Unified.transport
         Unified.distance_traveled];
    cbn [Unified.with_state Unified.path_planner] in G;
    rewrite ?G; repeat split; exact Hm.
Qed.

(** The orientation after [update] is the planner's, computed from the
    orientation before. *)
Lemma update_orientation (c : Unified.Controller) (t dt : R) :
  Unified.is_moving (Unified.current_state c) = true ->
  Unified.orientation
    (Unified.current_state (state_of (Unified.update c t dt)))
  = Unified.calculate_orientation (Unified.path_planner c) t
      (Unified.current_state c) (Unified.target_gaze c).
Proof.
  intros Hm. unfold Unified.update. rewrite Hm.
  match goal with
  | |- context [if geb ?a ?b then _ else _] => destruct (geb a b)
  end;
    cbn [state_of Unified.with_state Unified.current_state
         Unified.orientation];
    destruct (Unified.path_planner c); reflexivity.
Qed.

(** C3, on the code as it is.  The unified controller takes the heading
    error for its yaw rate by plain subtraction, in degrees.  Started over a
    connected Unity link with the gaze at its default 0, and the
    orientation fed back by the status datagram at 350, an iteration of the
    update thread first lets the planner step the orientation the short
    way, from 350 to 351 (a tenth of the wrapped difference 10), and then
    sends the yaw rate (0 - 351) * 0.1: the error it uses is -351, beyond a
    half turn, and drives the heading the long way round, whereas the error
    wrapped to (-180, 180] is 9, of the opposite sign. *)
Theorem gaze_yaw_rate_takes_raw_error (t : R) :
  let u0 := Unified.start (Unified.create (Unified.Unity true [])) in
  let u1 := Unified.with_controller u0
              (Unified.receive_status (Unified.controller u0)
                                      (0, 0, 0) 350 0) in
  exists (u2 : Unified.t) (cmd : Unified.UnityCommand),
    Unified.update_loop_iteration u1 t = Next u2
    /\ Unified.orientation (Unified.current_state (Unified.controller u2))
       = 351
    /\ Unified.transport (Unified.controller u2) = Unified.Unity true [cmd]
    /\ Unified.u_yawRate cmd = (0 - 351) * 0.1
    /\ 180 < Rabs (0 - 351)
    /\ Spec.wrapped_degrees 0 351 9
    /\ Unified.u_yawRate cmd < 0 < 9 * 0.1.
Proof.
  cbv zeta.
  pose (u1 := Unified.with_controller
                (Unified.start (Unified.create (Unified.Unity true [])))
                (Unified.receive_status
                   (Unified.controller
                      (Unified.start (Unified.create (Unified.Unity true []))))
                   (0, 0, 0) 350 0)).
  fold u1.
  destruct (update_shape (Unified.controller u1) t 0.01 eq_refl)
    as (c' & M & _ & _ & _ & _ & _ & T & E).
  assert (S : state_of (Unified.update (Unified.controller u1) t 0.01) = c')
    by (rewrite E; destruct (geb _ _); reflexivity).
  pose proof (update_adds_velocity_step (Unified.controller u1) 10 0.1 t 0.01
                eq_refl eq_refl) as D.
  pose proof (update_orientation (Unified.controller u1) t 0.01 eq_refl) as O.
  rewrite S in D, O.
  assert (D0 : Unified.distance_traveled (Unified.current_state c') = 0).
  { rewrite D. cbn. rewrite Rmult_0_l, Rabs_R0. lra. }
  assert (O1 : Unified.orientation (Unified.current_state c') = 351).
  { rewrite O. cbn. unfold Unified.straight_orientation.
    cbn [Unified.orientation].
    rewrite normalize_one_round by (apply Rabs_le; lra).
    by_cases_on_order. }
  rewrite D0, geb_false in E by (cbn; lra).
  assert (I : Unified.update_loop_iteration u1 t
              = Next (Unified.with_controller u1
                        (Unified.send_movement_command c' (0, 0, 0.5)
                           ((0 - Unified.orientation (Unified.current_state c'))
                            * 0.1)))).
  { unfold Unified.update_loop_iteration. rewrite E, M. reflexivity. }
  rewrite I, O1.
  unfold Unified.send_movement_command. rewrite T.
  cbn [u1 Unified.with_controller Unified.controller Unified.start
       Unified.create Unified.receive_status Unified.with_state
       Unified.transport negb app Unified.with_transport
       Unified.current_state].
  eexists. eexists. split; [reflexivity |].
  split; [exact O1 |]. split; [reflexivity |].
  cbn [Unified.u_yawRate].
  split; [reflexivity |].
  split; [rewrite Rabs_left by lra; lra |].
  split; [| lra].
  unfold Spec.wrapped_degrees. split; [lra |]. exists 1%Z. lra.
Qed.

(** X15.  [update] does nothing to a robot that is not moving.  On a moving
    robot it never clears [is_moving] and never publishes a command; when
    the distance it has just accumulated reaches the planner's path length
    it raises [AttributeError] (the [stop_movement] it calls exists on no
    controller class), and otherwise it returns normally.  With the
    straight planner the end of the path is reached exactly when
    [distance_traveled + |velocity * dt|] is at least the path length. *)
Theorem update_raises_at_the_end_of_the_path
    (c : Unified.Controller) (t dt : R) :
  (Unified.is_moving (Unified.current_state c) = false ->
   Unified.update c t dt = Next c)
  /\ (Unified.is_moving (Unified.current_state c) = true ->
      let c' := state_of (Unified.update c t dt) in
      let d' := Unified.distance_traveled (Unified.current_state c') in
      let l := Unified.path_length_of (Unified.path_planner c) in
      Unified.is_moving (Unified.current_state c') = true
      /\ Unified.transport c' = Unified.transport c
      /\ (l <= d' -> Unified.update c t dt = Raised AttributeError c')
      /\ (d' < l -> Unified.update c t dt = Next c')
      /\ (forall l0 g, Unified.path_planner c = Unified.StraightPathPlanner l0 g ->
            d' = Unified.distance_traveled (Unified.current_state c)
                 + Rabs (Unified.velocity (Unified.current_state c) * dt))).
Proof.
  split.
  - intros Hm. unfold Unified.update. rewrite Hm. reflexivity.
  - intros Hm. cbv zeta.
    destruct (update_shape c t dt Hm) as (c' & M & _ & _ & _ & _ & _ & T & E).
    rewrite E.
    split; [destruct (geb _ _); exact M |].
    split; [destruct (geb _ _); exact T |].
    split; [| split].
    + intros Hl. destruct (geb _ _) eqn:G; cbn [state_of] in *.
      * reflexivity.
      * rewrite geb_true in G by exact Hl. discriminate G.
    + intros Hl. destruct (geb _ _) eqn:G; cbn [state_of] in *.
      * rewrite geb_false in G by exact Hl. discriminate G.
      * reflexivity.
    + intros l0 g Hp. rewrite <- E.
      now apply (update_adds_velocity_step c l0 g t dt).
Qed.

(** A robot one step short of a ten-unit path, and one standing still. *)
Lemma update_raises_at_the_end_of_the_path_witness :
  Unified.update
    (Unified.mkController (Unified.mkState zero3 0 0 false 0 "forward") 0.5 0
       Unified.straight_default (Unified.Unity true [])) 0 0.01
  = Next
      (Unified.mkController (Unified.mkState zero3 0 0 false 0 "forward") 0.5 0
         Unified.straight_default (Unified.Unity true []))
  /\ Unified.is_moving
       (Unified.current_state
          (state_of
             (Unified.update
                (Unified.mkController
                   (Unified.mkState zero3 0 1 true 9.995 "forward") 0.5 0
                   Unified.straight_default (Unified.Unity true [])) 0 0.01)))
     = true.
Proof.
  split.
  - exact (proj1 (update_raises_at_the_end_of_the_path
                    (Unified.mkController
                       (Unified.mkState zero3 0 0 false 0 "forward") 0.5 0
                       Unified.straight_default (Unified.Unity true []))
                    0 0.01) eq_refl).
  - exact (proj1 (proj2 (update_raises_at_the_end_of_the_path
                           (Unified.mkController
                              (Unified.mkState zero3 0 1 true 9.995 "forward")
                              0.5 0 Unified.straight_default
                              (Unified.Unity true []))
                           0 0.01) eq_refl)).
Defined.

(** ** The unified controller: operator commands *)

(** X16.  The gaze setters clamp like the speed setters: after
    [set_gaze(a)] on the unified controller and [set_gaze_angle(a)] on the
    command line controller the stored gaze angle is [max(-90, min(90, a))],
    within [-90, 90]; the unified controller copies it to [target_gaze],
    and the command line controller, when moving, sends it at once in a
    parameter update and otherwise sends nothing. *)
Theorem gaze_setters_clamp (a : R) :
  (forall u : Unified.t,
      Unified.gaze_angle (Unified.set_gaze u a) = Rmax (-90) (Rmin 90 a)
      /\ Unified.target_gaze (Unified.controller (Unified.set_gaze u a))
         = Rmax (-90) (Rmin 90 a))
  /\ (forall c : CLI.Go2Controller,
         CLI.gaze_angle (CLI.set_gaze_angle c a) = Rmax (-90) (Rmin 90 a)
         /\ CLI.sent (CLI.set_gaze_angle c a)
            = CLI.sent c
              ++ (if CLI.is_moving c
                  then [CLI.mkCommand (CLI.speed c) (CLI.mode c)
                          (Rmax (-90) (Rmin 90 a)) false false false]
                  else []))
  /\ -90 <= Rmax (-90) (Rmin 90 a) <= 90.
Proof.
  assert (E : max (-90) (min 90 a) = Rmax (-90) (Rmin 90 a))
    by apply clamp_is_Rmax_Rmin.
  split; [| split].
  - intros u. split; exact E.
  - intros c. unfold CLI.set_gaze_angle. cbn [CLI.is_moving].
    destruct (CLI.is_moving c);
      cbn [CLI.update_movement CLI.send_command CLI.gaze_angle CLI.sent
           CLI.speed CLI.mode];
      rewrite E; [| rewrite app_nil_r]; split; reflexivity.
  - rewrite <- E. apply clamp_range. lra.
Qed.

Lemma unified_ok_create (l : Unified.link) : Obs.unified_ok (Unified.create l).
Proof.
  unfold Obs.unified_ok. cbn. repeat split; try lra. now left.
Qed.

Lemma unified_ok_send (u : Unified.t) (c : Unified.Controller) :
  Unified.current_state c = Unified.current_state (Unified.controller u) ->
  Unified.target_speed c = Unified.target_speed (Unified.controller u) ->
  Unified.target_gaze c = Unified.target_gaze (Unified.controller u) ->
  Obs.unified_ok u -> Obs.unified_ok (Unified.with_controller u c).
Proof.
  intros A B C (H1 & H2 & H3 & H4 & H5 & H6 & H7).
  unfold Obs.unified_ok.
  cbn [Unified.with_controller Unified.controller Unified.speed
       Unified.gaze_angle Unified.movement_mode Unified.is_running].
  rewrite A, B, C. repeat split; first [assumption | lra].
Qed.

Lemma unified_ok_dispatch (u : Unified.t) (cmd : Unified.command) :
  Obs.unified_ok u -> Obs.unified_ok (Unified.dispatch u cmd).
Proof.
  intros H. pose proof H as (H1 & H2 & H3 & H4 & H5 & H6 & H7).
  destruct cmd as [ | | | v | m | a | | ]; cbn [Unified.dispatch];
    try exact H.
  - (* start *)
    unfold Obs.unified_ok, Unified.start. cbn.
    repeat split; first [assumption | lra].
  - (* stop *)
    unfold Obs.unified_ok, Unified.stop.
    cbn [Unified.controller Unified.speed Unified.gaze_angle
         Unified.movement_mode Unified.is_running].
    destruct (send_keeps_state
                (Unified.with_state (Unified.controller u)
                   (Unified.set_is_moving
                      (Unified.current_state (Unified.controller u)) false))
                (0, 0, 0) 0) as (A & B & C & _).
    rewrite A, B, C. cbn. repeat split; first [assumption | lra].
  - (* reset *)
    unfold Obs.unified_ok, Unified.reset, Unified.stop.
    cbn [Unified.controller Unified.speed Unified.gaze_angle
         Unified.movement_mode Unified.is_running Unified.with_controller].
    destruct (send_keeps_state
                (Unified.with_state (Unified.controller u)
                   (Unified.set_is_moving
                      (Unified.current_state (Unified.controller u)) false))
                (0, 0, 0) 0) as (A & B & C & _).
    cbn [Unified.with_state Unified.current_state Unified.target_speed
         Unified.target_gaze Unified.mode Unified.is_moving].
    rewrite A, B, C. cbn. repeat split; first [assumption | lra].
  - (* speed *)
    unfold Obs.unified_ok, Unified.set_speed. cbn.
    pose proof (clamp_range 0.1 2 v ltac:(lra)) as K.
    repeat split; first [assumption | lra].
  - (* mode *)
    unfold Unified.set_mode.
    destruct (String.eqb m "forward") eqn:F; cbn [orb].
    + apply String.eqb_eq in F. subst m. unfold Obs.unified_ok. cbn.
      repeat split; try first [assumption | lra]. now left.
    + destruct (String.eqb m "rightward") eqn:G; [| exact H].
      apply String.eqb_eq in G. subst m. unfold Obs.unified_ok. cbn.
      repeat split; try first [assumption | lra]. now right.
  - (* gaze *)
    unfold Obs.unified_ok, Unified.set_gaze. cbn.
    pose proof (clamp_range (-90) 90 a ltac:(lra)) as K.
    repeat split; first [assumption | lra].
Qed.

Lemma unified_ok_iteration (u : Unified.t) (t : R) :
  Obs.unified_ok u ->
  Obs.unified_ok (state_of (Unified.update_loop_iteration u t)).
Proof.
  intros H. unfold Unified.update_loop_iteration.
  destruct (Unified.is_moving (Unified.current_state (Unified.controller u)))
    eqn:Hm.
  - destruct (update_shape (Unified.controller u) t 0.01 Hm)
      as (c' & M & Mo & _ & TS & TG & _ & _ & E).
    rewrite E.
    assert (K : Obs.unified_ok (Unified.with_controller u c')).
    { destruct H as (H1 & H2 & H3 & H4 & H5 & H6 & H7).
      unfold Obs.unified_ok.
      cbn [Unified.with_controller Unified.controller Unified.speed
           Unified.gaze_angle Unified.movement_mode Unified.is_running].
      rewrite TS, TG, Mo, M. rewrite Hm in H7.
      repeat split; first [assumption | lra]. }
    destruct (geb _ _); cbn [state_of]; [exact K |].
    rewrite M. cbn [state_of].
    match goal with
    | |- Obs.unified_ok
           (Unified.with_controller u (Unified.send_movement_command c' ?v ?w)) =>
      destruct (send_keeps_state c' v w) as (A & B & C & _);
      replace (Unified.with_controller u (Unified.send_movement_command c' v w))
        with (Unified.with_controller (Unified.with_controller u c')
                (Unified.send_movement_command c' v w)) by reflexivity;
      apply unified_ok_send; [exact A | exact B | exact C | exact K]
    end.
  - assert (E : Unified.update (Unified.controller u) t 0.01
                = Next (Unified.controller u))
      by (unfold Unified.update; rewrite Hm; reflexivity).
    rewrite E, Hm. cbn [state_of].
    replace (Unified.with_controller u (Unified.controller u)) with u
      by (destruct u; reflexivity).
    exact H.
Qed.

Lemma unified_ok_play (evs : list Unified.event) : forall u : Unified.t,
  Obs.unified_ok u -> Obs.unified_ok (Unified.play u evs).
Proof.
  unfold Unified.play.
  induction evs as [|ev evs IH]; intros u H; cbn [fold_left]; [exact H |].
  apply IH. destruct ev as [cmd | t]; cbn [Unified.step].
  - now apply unified_ok_dispatch.
  - destruct (Unified.is_running u); [now apply unified_ok_iteration | exact H].
Qed.

(** X17.  Whatever the operator types and however the iterations of the
    update thread fall between the commands, the unified controller keeps
    its speed in [0.1, 2.0] and its gaze in [-90, 90], the controller's
    targets equal to them, the movement mode one of "forward" and
    "rightward" (any other mode is ignored) and equal to the mode of the
    robot state, and [is_moving] equal to [is_running]. *)
Theorem unified_controller_keeps_its_settings_sound
    (l : Unified.link) (evs : list Unified.event) :
  let u := Unified.play (Unified.create l) evs in
  0.1 <= Unified.speed u <= 2
  /\ -90 <= Unified.gaze_angle u <= 90
  /\ Unified.target_speed (Unified.controller u) = Unified.speed u
  /\ Unified.target_gaze (Unified.controller u) = Unified.gaze_angle u
  /\ (Unified.movement_mode u = "forward"%string
      \/ Unified.movement_mode u = "rightward"%string)
  /\ Unified.mode (Unified.current_state (Unified.controller u))
     = Unified.movement_mode u
  /\ Unified.is_moving (Unified.current_state (Unified.controller u))
     = Unified.is_running u.
Proof.
  exact (unified_ok_play evs (Unified.create l) (unified_ok_create l)).
Qed.

(** X18.  While the robot state's mode agrees with the operator's movement
    mode (which the operator commands keep true), an iteration of the
    update thread on a moving, connected controller that does not end the
    path publishes the operator's speed along the axis of the mode and a
    yaw rate of a tenth of the raw gaze error: for the real robot the
    command buffer becomes [speed, 0] in forward mode and [0, -speed] in
    rightward mode; for Unity one datagram is added with velocity
    (0, 0, speed) or (speed, 0, 0), marked as moving. *)
Theorem update_thread_publishes_operator_speed
    (u u' : Unified.t) (t : R) :
  Unified.mode (Unified.current_state (Unified.controller u))
  = Unified.movement_mode u ->
  Unified.is_moving (Unified.current_state (Unified.controller u)) = true ->
  Unified.update_loop_iteration u t = Next u' ->
  let rightward := (Unified.movement_mode u =? "rightward")%string in
  let yaw_rate :=
    (Unified.gaze_angle u
     - Unified.orientation (Unified.current_state (Unified.controller u')))
    * 0.1 in
  match Unified.transport (Unified.controller u) with
  | Unified.Real true (Some _) =>
    Unified.transport (Unified.controller u')
    = Unified.Real true
        (Some (Unified.mkHighCmd
                 (if rightward then (0, - Unified.speed u)
                  else (Unified.speed u, 0))
                 yaw_rate))
  | Unified.Unity true sent =>
    Unified.transport (Unified.controller u')
    = Unified.Unity true
        (sent ++ [Unified.mkUnityCommand
                    (if rightward then (Unified.speed u, 0, 0)
                     else (0, 0, Unified.speed u))
                    yaw_rate
                    (Unified.target_speed (Unified.controller u))
                    (Unified.movement_mode u)
                    (Unified.target_gaze (Unified.controller u))
                    true])
  | idle_link => Unified.transport (Unified.controller u') = idle_link
  end.
Proof.
  intros Hmode Hm. unfold Unified.update_loop_iteration.
  destruct (update_shape (Unified.controller u) t 0.01 Hm)
    as (c' & M & Mo & _ & TS & TG & _ & T & E).
  rewrite E. destruct (geb _ _); [discriminate |].
  rewrite M. intros K. inversion K; subst u'; clear K. cbv zeta.
  cbn [Unified.with_controller Unified.controller].
  destruct (send_keeps_state c'
              (if (Unified.movement_mode u =? "rightward")%string
               then (Unified.speed u, 0, 0) else (0, 0, Unified.speed u))
              ((Unified.gaze_angle u
                - Unified.orientation (Unified.current_state c')) * 0.1))
    as (A & _).
  rewrite A. unfold Unified.send_movement_command.
  rewrite T, Mo, Hmode, TS, TG, M.
  destruct (Unified.transport (Unified.controller u))
    as [[|] sent | [|] [old |]]; cbn [negb Unified.with_transport
                                     Unified.transport];
    try reflexivity; try exact T.
  destruct (String.eqb _ _); cbn [nth0 nth2 fst snd]; reflexivity.
Qed.

(** The controller as built, started, with the real robot's link up. *)
Lemma update_thread_publishes_operator_speed_witness :
  exists u',
    Unified.update_loop_iteration
      (Unified.start
         (Unified.create
            (Unified.Real true (Some (Unified.mkHighCmd (0, 0) 0))))) 0
    = Next u'
    /\ exists w,
         Unified.transport (Unified.controller u')
         = Unified.Real true (Some (Unified.mkHighCmd (0.5, 0) w)).
Proof.
  pose (u := Unified.start
               (Unified.create
                  (Unified.Real true (Some (Unified.mkHighCmd (0, 0) 0))))).
  destruct (update_shape (Unified.controller u) 0 0.01 eq_refl)
    as (c' & M & _ & _ & _ & _ & _ & _ & E).
  assert (S : state_of (Unified.update (Unified.controller u) 0 0.01) = c')
    by (rewrite E; destruct (geb _ _); reflexivity).
  pose proof (update_adds_velocity_step (Unified.controller u) 10 0.1 0 0.01
                eq_refl eq_refl) as D.
  rewrite S in D.
  assert (D0 : Unified.distance_traveled (Unified.current_state c') = 0).
  { rewrite D. cbn [u Unified.controller Unified.current_state
                    Unified.distance_traveled Unified.velocity Unified.start
                    Unified.create Unified.initial_state].
    rewrite Rmult_0_l, Rabs_R0. lra. }
  rewrite D0, geb_false in E
    by (cbn [u Unified.controller Unified.start Unified.create
             Unified.path_planner Unified.path_length_of
             Unified.straight_default]; lra).
  assert (I : Unified.update_loop_iteration u 0
              = Next (Unified.with_controller u
                        (Unified.send_movement_command c' (0, 0, 0.5)
                           ((0 - Unified.orientation (Unified.current_state c'))
                            * 0.1)))).
  { unfold Unified.update_loop_iteration. rewrite E, M. reflexivity. }
  eexists. split; [exact I |].
  pose proof (update_thread_publishes_operator_speed u _ 0 eq_refl eq_refl I)
    as R.
  cbv zeta in R. eexists. exact R.
Defined.

(** X19.  [disconnect] always leaves the robot stopped: the controller is at
    rest and not connected afterwards; a Unity link that was up has been
    sent one last datagram, of zero velocity and yaw rate and not moving; a
    real robot's command buffer, when there is one, holds zero velocity
    and yaw speed whether or not the link was still up. *)
Theorem disconnect_leaves_robot_stopped (u : Unified.t) :
  let u' := Unified.disconnect u in
  Unified.is_moving (Unified.current_state (Unified.controller u')) = false
  /\ Unified.is_running u' = false
  /\ match Unified.transport (Unified.controller u) with
     | Unified.Unity true sent =>
       exists cmd,
         Unified.transport (Unified.controller u')
         = Unified.Unity false (sent ++ [cmd])
         /\ Unified.u_velocity cmd = (0, 0, 0)
         /\ Unified.u_yawRate cmd = 0
         /\ Unified.u_isMoving cmd = false
     | Unified.Unity false sent =>
       Unified.transport (Unified.controller u') = Unified.Unity false sent
     | Unified.Real _ (Some _) =>
       Unified.transport (Unified.controller u')
       = Unified.Real false (Some (Unified.mkHighCmd (0, 0) 0))
     | Unified.Real _ None =>
       Unified.transport (Unified.controller u') = Unified.Real false None
     end.
Proof.
  cbv zeta. destruct u as [[st ts tg pl tr] run sp ga mm ut].
  unfold Unified.disconnect, Unified.stop,
    Unified.controller_disconnect, Unified.send_movement_command.
  cbn [Unified.controller Unified.with_controller Unified.is_running
       Unified.with_state Unified.transport Unified.current_state].
  destruct tr as [[|] sent | [|] [old |]];
    cbn [negb Unified.with_transport Unified.transport Unified.with_state
         Unified.current_state Unified.set_is_moving Unified.is_moving
         Unified.controller Unified.with_controller Unified.is_running];
    repeat split.
  eexists. split; [reflexivity |]. repeat split.
Qed.

(** ** The command line controller *)

Lemma moving_after_snoc (sent : list CLI.Command) (c : CLI.Command) :
  Obs.moving_after (sent ++ [c])
  = if CLI.c_start c then true
    else if CLI.c_stop c || CLI.c_reset c then false
    else Obs.moving_after sent.
Proof. unfold Obs.moving_after. rewrite fold_left_app. reflexivity. Qed.

Lemma cli_ok_create : Obs.cli_ok CLI.create.
Proof.
  unfold Obs.cli_ok. cbn. repeat split; try lra. constructor.
Qed.

Lemma cli_ok_send (c : CLI.Go2Controller) (v g : R) (m : CLI.MovementMode)
    (b st sp rs : bool) :
  (v = 0 \/ 0.1 <= v <= 2) -> -90 <= g <= 90 ->
  0.1 <= CLI.speed c <= 2 -> -90 <= CLI.gaze_angle c <= 90 ->
  Forall Obs.cli_command_ok (CLI.sent c) ->
  b = (if st then true else if sp || rs then false
       else Obs.moving_after (CLI.sent c)) ->
  Obs.cli_ok
    (CLI.mk (CLI.speed c) (CLI.mode c) (CLI.gaze_angle c) b
       (CLI.sent c ++ [CLI.mkCommand v m g st sp rs])).
Proof.
  intros Hv Hg Hs Ha Hf Hb. unfold Obs.cli_ok.
  cbn [CLI.speed CLI.gaze_angle CLI.sent CLI.is_moving].
  split; [exact Hs |]. split; [exact Ha |]. split.
  - apply Forall_app. split; [exact Hf |]. constructor; [| constructor].
    split; assumption.
  - rewrite moving_after_snoc. exact Hb.
Qed.

Lemma cli_ok_start c : Obs.cli_ok c -> Obs.cli_ok (CLI.start_movement c).
Proof.
  intros (Hs & Ha & Hf & Hm). unfold CLI.start_movement, CLI.send_command.
  apply (cli_ok_send (CLI.set_is_moving c true)); try assumption;
    [now right | reflexivity].
Qed.

Lemma cli_ok_stop c : Obs.cli_ok c -> Obs.cli_ok (CLI.stop_movement c).
Proof.
  intros (Hs & Ha & Hf & Hm). unfold CLI.stop_movement, CLI.send_command.
  apply (cli_ok_send (CLI.set_is_moving c false)); try assumption;
    [now left | reflexivity].
Qed.

Lemma cli_ok_reset c : Obs.cli_ok c -> Obs.cli_ok (CLI.reset_position c).
Proof.
  intros (Hs & Ha & Hf & Hm). unfold CLI.reset_position, CLI.send_command.
  apply (cli_ok_send (CLI.set_is_moving c false)); try assumption;
    [now left | reflexivity].
Qed.

Lemma cli_ok_update c : Obs.cli_ok c -> Obs.cli_ok (CLI.update_movement c).
Proof.
  intros (Hs & Ha & Hf & Hm). unfold CLI.update_movement, CLI.send_command.
  replace (CLI.is_moving c) with
    (if false then true else if false || false then false
     else Obs.moving_after (CLI.sent c)) by (symmetry; exact Hm).
  apply (cli_ok_send c); try assumption; [now right | reflexivity].
Qed.

Lemma cli_ok_set_speed c v : Obs.cli_ok c -> Obs.cli_ok (CLI.set_speed c v).
Proof.
  intros (Hs & Ha & Hf & Hm). unfold CLI.set_speed.
  assert (K : Obs.cli_ok (CLI.mk (max 0.1 (min 2 v)) (CLI.mode c)
                            (CLI.gaze_angle c) (CLI.is_moving c) (CLI.sent c))).
  { repeat split; try assumption; try apply Ha.
    all: apply clamp_range; lra. }
  cbn [CLI.is_moving]. destruct (CLI.is_moving c) eqn:M; [| exact K].
  now apply cli_ok_update.
Qed.

Lemma cli_ok_set_mode c m : Obs.cli_ok c -> Obs.cli_ok (CLI.set_mode c m).
Proof.
  intros (Hs & Ha & Hf & Hm). unfold CLI.set_mode.
  assert (K : Obs.cli_ok (CLI.mk (CLI.speed c) m (CLI.gaze_angle c)
                            (CLI.is_moving c) (CLI.sent c)))
    by (split; [exact Hs | split; [exact Ha | split; assumption]]).
  cbn [CLI.is_moving]. destruct (CLI.is_moving c) eqn:M; [| exact K].
  now apply cli_ok_update.
Qed.

Lemma cli_ok_set_gaze c a : Obs.cli_ok c -> Obs.cli_ok (CLI.set_gaze_angle c a).
Proof.
  intros (Hs & Ha & Hf & Hm). unfold CLI.set_gaze_angle.
  assert (K : Obs.cli_ok (CLI.mk (CLI.speed c) (CLI.mode c)
                            (max (-90) (min 90 a)) (CLI.is_moving c)
                            (CLI.sent c))).
  { split; [exact Hs |]. split; [apply clamp_range; lra |].
    split; assumption. }
  cbn [CLI.is_moving]. destruct (CLI.is_moving c) eqn:M; [| exact K].
  now apply cli_ok_update.
Qed.

Lemma cli_ok_run_preset c name : Obs.cli_ok c -> Obs.cli_ok (CLI.run_preset c name).
Proof.
  intros H. unfold CLI.run_preset.
  destruct (CLI.presets name) as [[[v m] g] |]; [| exact H].
  apply cli_ok_start, cli_ok_set_gaze, cli_ok_set_mode, cli_ok_set_speed,
    cli_ok_reset, H.
Qed.

Lemma cli_ok_dispatch c r : Obs.cli_ok c -> Obs.cli_ok (CLI.dispatch c r).
Proof.
  intros H. destruct r as [ | | | | | | | [v |] | [m |] | [a |] | name | | e];
    cbn [CLI.dispatch]; try exact H.
  - now apply cli_ok_start.
  - now apply cli_ok_stop.
  - now apply cli_ok_reset.
  - now apply cli_ok_set_speed.
  - now apply cli_ok_set_mode.
  - now apply cli_ok_set_gaze.
  - now apply cli_ok_run_preset.
Qed.

Lemma cli_ok_loop (rounds : list CLI.round) : forall c : CLI.Go2Controller,
  Obs.cli_ok c -> Obs.cli_ok (CLI.loop c rounds).
Proof.
  induction rounds as [|r rounds IH]; intros c H; cbn [CLI.loop];
    [exact H |].
  destruct r as [ | | | | | | | v | m | a | name | | e];
    try exact H;
    try (apply IH; apply cli_ok_dispatch; exact H).
  destruct e; try exact H. now apply IH.
Qed.

(** X20.  However a session of the command line program goes, the
    controller's speed stays in [0.1, 2.0] and its gaze in [-90, 90], and
    every datagram it has sent carries a speed that is either 0 (stop and
    reset) or within [0.1, 2.0], and a gaze within [-90, 90]; this holds at
    every prompt and after the final stop of the [finally] clause. *)
Theorem cli_parameters_stay_in_range (rounds : list CLI.round) :
  let c := CLI.loop CLI.create rounds in
  (0.1 <= CLI.speed c <= 2
   /\ -90 <= CLI.gaze_angle c <= 90
   /\ Forall Obs.cli_command_ok (CLI.sent c))
  /\ Forall Obs.cli_command_ok (CLI.sent (CLI.main rounds)).
Proof.
  cbv zeta.
  pose proof (cli_ok_loop rounds CLI.create cli_ok_create) as H.
  pose proof (cli_ok_stop _ H) as H'.
  destruct H as (A & B & C & _). destruct H' as (_ & _ & C' & _).
  split; [split; [exact A | split; [exact B | exact C]] | exact C'].
Qed.

(** X21.  The controller's [is_moving] flag never drifts from what it has
    told the simulator: at every prompt of a session it is true exactly
    when the last [start], [stop] or [reset] datagram sent was a [start]
    (parameter updates in between leave it), and after the [finally] clause
    it is false. *)
Theorem cli_moving_flag_matches_datagrams (rounds : list CLI.round) :
  let c := CLI.loop CLI.create rounds in
  CLI.is_moving c = Obs.moving_after (CLI.sent c)
  /\ CLI.is_moving (CLI.main rounds) = false
  /\ Obs.moving_after (CLI.sent (CLI.main rounds)) = false.
Proof.
  cbv zeta.
  pose proof (cli_ok_loop rounds CLI.create cli_ok_create) as H.
  pose proof (cli_ok_stop _ H) as H'.
  destruct H as (_ & _ & _ & M). destruct H' as (_ & _ & _ & M').
  split; [exact M |]. split; [reflexivity |].
  unfold CLI.main, CLI.finally. rewrite <- M'. reflexivity.
Qed.

Lemma presets_in_range name v m g :
  CLI.presets name = Some (v, m, g) -> 0.1 <= v <= 2 /\ -90 <= g <= 90.
Proof.
  unfold CLI.presets.
  repeat match goal with
         | |- context [String.eqb ?a ?b] => destruct (String.eqb a b)
         end;
    intros E; inversion E; subst; lra.
Qed.

(** X22.  [run_preset] with a known preset name sends exactly two
    datagrams, a reset and then a start carrying the preset's speed, mode
    and gaze unchanged (every preset lies inside the clamping ranges, and
    the three setters, called at rest, send nothing), and leaves the
    controller moving with those values; with an unknown name it does
    nothing at all. *)
Theorem run_preset_resets_then_starts (c : CLI.Go2Controller) (name : string) :
  match CLI.presets name with
  | Some (v, m, g) =>
    CLI.run_preset c name
    = CLI.mk v m g true
        (CLI.sent c
           ++ [CLI.mkCommand 0 (CLI.mode c) (CLI.gaze_angle c) false false true;
               CLI.mkCommand v m g true false false])
  | None => CLI.run_preset c name = c
  end.
Proof.
  unfold CLI.run_preset.
  destruct (CLI.presets name) as [[[v m] g] |] eqn:E; [| reflexivity].
  destruct (presets_in_range name v m g E) as [Hv Hg].
  unfold CLI.reset_position, CLI.set_speed, CLI.set_mode, CLI.set_gaze_angle,
    CLI.start_movement, CLI.send_command, CLI.set_is_moving.
  cbn [CLI.is_moving CLI.speed CLI.mode CLI.gaze_angle CLI.sent].
  rewrite (clamp_inside 0.1 2 v Hv), (clamp_inside (-90) 90 g Hg).
  rewrite <- app_assoc. reflexivity.
Qed.

(** ** The study protocol: trial sequences and markers *)

Lemma add_trials_spec (m : Protocol.MarkerPosition)
    (cs : list Protocol.TrialCondition) :
  forall acc : list Protocol.TrialCondition * nat,
    let acc' := fold_left (Protocol.add_trial m) cs acc in
    snd acc' = (snd acc + List.length cs)%nat
    /\ map Protocol.trial_id (fst acc')
       = map Protocol.trial_id (fst acc) ++ seq (snd acc) (List.length cs)
    /\ map Protocol.marker_id (fst acc')
       = map Protocol.marker_id (fst acc)
         ++ repeat (Protocol.id m) (List.length cs)
    /\ map Protocol.robot_speed (fst acc')
       = map Protocol.robot_speed (fst acc) ++ map Protocol.robot_speed cs.
Proof.
  induction cs as [|c cs IH]; intros acc; cbn [fold_left List.length seq repeat map].
  - rewrite Nat.add_0_r, !app_nil_r. repeat split.
  - destruct (IH (Protocol.add_trial m acc c)) as (A & B & C & D).
    cbv zeta in *. rewrite A, B, C, D.
    unfold Protocol.add_trial.
    cbn [fst snd Protocol.trial_id Protocol.marker_id Protocol.robot_speed].
    rewrite !map_app. cbn [map Protocol.trial_id Protocol.marker_id
                           Protocol.robot_speed].
    rewrite <- !app_assoc. cbn [app].
    repeat split; lia.
Qed.

Lemma all_trials_fold (cs : list Protocol.TrialCondition)
    (ms : list Protocol.MarkerPosition) :
  forall acc : list Protocol.TrialCondition * nat,
    let acc' :=
      fold_left (fun acc m => fold_left (Protocol.add_trial m) cs acc) ms acc in
    snd acc' = (snd acc + List.length ms * List.length cs)%nat
    /\ map Protocol.trial_id (fst acc')
       = map Protocol.trial_id (fst acc)
         ++ seq (snd acc) (List.length ms * List.length cs)
    /\ map Protocol.marker_id (fst acc')
       = map Protocol.marker_id (fst acc)
         ++ flat_map (fun m => repeat (Protocol.id m) (List.length cs)) ms
    /\ map Protocol.robot_speed (fst acc')
       = map Protocol.robot_speed (fst acc)
         ++ flat_map (fun _ => map Protocol.robot_speed cs) ms.
Proof.
  induction ms as [|m ms IH]; intros acc;
    cbn [fold_left List.length seq flat_map Nat.mul].
  - rewrite Nat.add_0_r, !app_nil_r. repeat split.
  - destruct (add_trials_spec m cs acc) as (A1 & B1 & C1 & D1).
    destruct (IH (fold_left (Protocol.add_trial m) cs acc)) as (A & B & C & D).
    cbv zeta in *. rewrite A, B, C, D, A1, B1, C1, D1.
    rewrite <- !app_assoc, seq_app.
    repeat split; lia.
Qed.

Lemma all_trials_spec (self : Protocol.StudyProtocol) :
  let n := (List.length (Protocol.markers self)
            * List.length (Protocol.conditions self))%nat in
  map Protocol.trial_id (Protocol.all_trials self) = seq 1 n
  /\ map Protocol.marker_id (Protocol.all_trials self)
     = flat_map (fun m => repeat (Protocol.id m)
                            (List.length (Protocol.conditions self)))
                (Protocol.markers self)
  /\ map Protocol.robot_speed (Protocol.all_trials self)
     = flat_map (fun _ => map Protocol.robot_speed (Protocol.conditions self))
                (Protocol.markers self).
Proof.
  cbv zeta. unfold Protocol.all_trials.
  destruct (all_trials_fold (Protocol.conditions self) (Protocol.markers self)
              ([], 1%nat)) as (_ & B & C & D).
  cbv zeta in *. cbn [fst snd map app] in *. repeat split; assumption.
Qed.

Lemma marker_ids_of_trials (self : Protocol.StudyProtocol) (k : string) :
  In k (map Protocol.marker_id (Protocol.all_trials self)) ->
  In k (map Protocol.id (Protocol.markers self)).
Proof.
  destruct (all_trials_spec self) as (_ & C & _). rewrite C.
  intros H. apply in_flat_map in H. destruct H as (m & Hm & Hk).
  apply repeat_spec in Hk. subst k. now apply in_map.
Qed.

(** X23.  The trial sequence of a participant crosses every marker with
    every condition: it has one trial per pair, numbered 1 to
    markers * conditions with no number used twice, each trial naming a
    marker of the protocol; without shuffling the numbers run in order,
    marker by marker, and shuffling only permutes the trials. *)
Theorem trial_sequence_crosses_markers_and_conditions
    (shuffle : list Protocol.TrialCondition -> list Protocol.TrialCondition)
    (self : Protocol.StudyProtocol) (randomize : bool) :
  (forall l, Permutation (shuffle l) l) ->
  let n := (List.length (Protocol.markers self)
            * List.length (Protocol.conditions self))%nat in
  let trials := Protocol.get_trial_sequence shuffle self randomize in
  List.length trials = n
  /\ Permutation (map Protocol.trial_id trials) (seq 1 n)
  /\ NoDup (map Protocol.trial_id trials)
  /\ (forall t, In t trials ->
        In (Protocol.marker_id t) (map Protocol.id (Protocol.markers self)))
  /\ map Protocol.trial_id (Protocol.get_trial_sequence shuffle self false)
     = seq 1 n
  /\ Permutation trials (Protocol.get_trial_sequence shuffle self false).
Proof.
  intros Hs. cbv zeta.
  destruct (all_trials_spec self) as (B & C & _). cbv zeta in B.
  assert (P : Permutation (Protocol.get_trial_sequence shuffle self randomize)
                (Protocol.all_trials self)).
  { unfold Protocol.get_trial_sequence.
    destruct randomize; [apply Hs | apply Permutation_refl]. }
  assert (Pid : Permutation
                  (map Protocol.trial_id
                     (Protocol.get_trial_sequence shuffle self randomize))
                  (seq 1 (List.length (Protocol.markers self)
                          * List.length (Protocol.conditions self))))
    by (rewrite <- B; now apply Permutation_map).
  split.
  - rewrite (Permutation_length P), <- (length_map Protocol.trial_id), B.
    apply length_seq.
  - split; [exact Pid |]. split.
    + eapply Permutation_NoDup; [symmetry; exact Pid | apply seq_NoDup].
    + split; [| split; [exact B | exact P]].
      intros t Ht. apply marker_ids_of_trials.
      apply in_map. eapply Permutation_in; [exact P | exact Ht].
Qed.

(** The default protocol, shuffled by reversal. *)
Lemma trial_sequence_crosses_markers_and_conditions_witness :
  List.length
    (Protocol.get_trial_sequence (@rev Protocol.TrialCondition)
       Protocol.create true)
  = (List.length (Protocol.markers Protocol.create)
     * List.length (Protocol.conditions Protocol.create))%nat.
Proof.
  apply (trial_sequence_crosses_markers_and_conditions
           (@rev Protocol.TrialCondition) Protocol.create true).
  intros l. symmetry. apply Permutation_rev.
Defined.

Lemma find_marker_some ms k m :
  Protocol.find_marker ms k = Some m -> In m ms /\ Protocol.id m = k.
Proof.
  induction ms as [|a ms IH]; cbn [Protocol.find_marker]; [discriminate |].
  destruct (String.eqb (Protocol.id a) k) eqn:E.
  - intros H. inversion H; subst. apply String.eqb_eq in E.
    split; [now left | exact E].
  - intros H. destruct (IH H). split; [now right | assumption].
Qed.

Lemma find_marker_none ms k :
  Protocol.find_marker ms k = None <-> ~ In k (map Protocol.id ms).
Proof.
  induction ms as [|a ms IH]; cbn [Protocol.find_marker map In].
  - tauto.
  - destruct (String.eqb (Protocol.id a) k) eqn:E.
    + apply String.eqb_eq in E. split; [discriminate | tauto].
    + apply String.eqb_neq in E. rewrite IH. tauto.
Qed.

(** X24.  [get_marker_info] returns the first marker carrying the id asked
    for and [None] exactly when no marker carries it; for every trial of
    every trial sequence it finds a marker with the trial's marker id, so
    the marker that [run_next_trial] reads is never [None]. *)
Theorem marker_lookup_finds_every_trial_marker
    (shuffle : list Protocol.TrialCondition -> list Protocol.TrialCondition)
    (self : Protocol.StudyProtocol) (randomize : bool) :
  (forall l, Permutation (shuffle l) l) ->
  (forall k m, Protocol.get_marker_info self k = Some m ->
               In m (Protocol.markers self) /\ Protocol.id m = k)
  /\ (forall k, Protocol.get_marker_info self k = None
                <-> ~ In k (map Protocol.id (Protocol.markers self)))
  /\ (forall t,
         In t (Protocol.get_trial_sequence shuffle self randomize) ->
         exists m, Protocol.get_marker_info self (Protocol.marker_id t) = Some m
                   /\ Protocol.id m = Protocol.marker_id t).
Proof.
  intros Hs. unfold Protocol.get_marker_info.
  split; [intros k m; apply find_marker_some |].
  split; [intros k; apply find_marker_none |].
  intros t Ht.
  assert (Hin : In (Protocol.marker_id t)
                  (map Protocol.id (Protocol.markers self))).
  { apply marker_ids_of_trials, in_map.
    unfold Protocol.get_trial_sequence in Ht.
    destruct randomize; [| exact Ht].
    eapply Permutation_in; [apply Hs | exact Ht]. }
  destruct (Protocol.find_marker (Protocol.markers self) (Protocol.marker_id t))
    as [m |] eqn:E.
  - exists m. split; [reflexivity |]. now apply find_marker_some in E.
  - apply find_marker_none in E. contradiction.
Qed.

(** The unshuffled default protocol and a marker id no marker has. *)
Lemma marker_lookup_finds_every_trial_marker_witness :
  Protocol.get_marker_info Protocol.create "M13" = None
  <-> ~ In "M13"%string (map Protocol.id (Protocol.markers Protocol.create)).
Proof.
  apply (marker_lookup_finds_every_trial_marker (fun l => l) Protocol.create
           false).
  intros l. apply Permutation_refl.
Defined.
